(** * timesheet: the local store, the synchronizer and the reports

    A shallow embedding of [timesheet.py].  The SQLite table is a list of
    rows in rowid order, a connection keeps the persisted table apart from
    the uncommitted working copy, the two HTTP services and the Python
    library calls the script relies on are parameters of the Sections that
    use them, and what the script prints is a list of lines. *)

From Stdlib Require Import ZArith QArith String Ascii List Lia.
From stdpp Require Import gmap strings list sorting.

Local Open Scope string_scope.
Local Open Scope Z_scope.

(** ** Calendar dates

    [datetime.date] values are carried by their proleptic Gregorian ordinal
    (0001-01-01 is day 1), which is what Python's date arithmetic works on. *)
Module Date.

Definition min_ordinal : Z := 1.
Definition max_ordinal : Z := 3652059.     (* 9999-12-31 *)

Definition valid (n : Z) : bool := (min_ordinal <=? n) && (n <=? max_ordinal).

(** [today - datetime.timedelta(days=horizon)]: the timedelta constructor
    accepts at most 999999999 days either way and the subtraction must land
    on a representable date; Python raises OverflowError otherwise. *)
Definition sub_days (today horizon : Z) : option Z :=
  if (Z.abs horizon <=? 999999999) && valid (today - horizon)
  then Some (today - horizon) else None.

Definition days_before_month (leap : bool) (m : Z) : Z :=
  let b := match m with
           | 1 => 0 | 2 => 31 | 3 => 59 | 4 => 90 | 5 => 120 | 6 => 151
           | 7 => 181 | 8 => 212 | 9 => 243 | 10 => 273 | 11 => 304
           | _ => 334
           end in
  if leap && (2 <? m) then b + 1 else b.

Definition days_in_month (leap : bool) (m : Z) : Z :=
  match m with
  | 2 => if leap then 29 else 28
  | 4 | 6 | 9 | 11 => 30
  | _ => 31
  end.

(** [datetime._ord2ymd]: ordinal to (year, month, day). *)
Definition ord2ymd (n : Z) : Z * Z * Z :=
  let n := n - 1 in
  let n400 := n / 146097 in let n := n mod 146097 in
  let n100 := n / 36524 in let n := n mod 36524 in
  let n4 := n / 1461 in let n := n mod 1461 in
  let n1 := n / 365 in let n := n mod 365 in
  let year := n400 * 400 + 1 + n100 * 100 + n4 * 4 + n1 in
  if (n1 =? 4) || (n100 =? 4) then (year - 1, 12, 31)
  else
    let leap := (n1 =? 3) && (negb (n4 =? 24) || (n100 =? 3)) in
    let month := Z.shiftr (n + 50) 5 in
    let preceding := days_before_month leap month in
    if n <? preceding
    then (year, month - 1,
          n - (preceding - days_in_month leap (month - 1)) + 1)
    else (year, month, n - preceding + 1).

Definition digit (d : Z) : string :=
  String (ascii_of_nat (48 + Z.to_nat (d mod 10))) EmptyString.

Definition pad2 (n : Z) : string := digit (n / 10) ++ digit n.
Definition pad4 (n : Z) : string := pad2 (n / 100) ++ pad2 n.

(** [strftime("%Y-%m-%d")] of the date with ordinal [n]. *)
Definition strftime (n : Z) : string :=
  let '(y, m, d) := ord2ymd n in pad4 y ++ "-" ++ pad2 m ++ "-" ++ pad2 d.

Definition is_leap (y : Z) : bool :=
  (y mod 4 =? 0) && (negb (y mod 100 =? 0) || (y mod 400 =? 0)).

Definition days_before_year (y : Z) : Z :=
  let p := y - 1 in p * 365 + p / 4 - p / 100 + p / 400.

(** [datetime._ymd2ord] *)
Definition ymd2ord (y m d : Z) : Z :=
  days_before_year y + days_before_month (is_leap y) m + d.

Definition digit_value (c : ascii) : option Z :=
  let n := nat_of_ascii c in
  if (48 <=? n)%nat && (n <=? 57)%nat then Some (Z.of_nat n - 48) else None.

Definition number2 (a b : ascii) : option Z :=
  match digit_value a, digit_value b with
  | Some x, Some y => Some (10 * x + y)
  | _, _ => None
  end.

(** [strptime(s, '%Y-%m-%d')] on the canonical ten-character form
    YYYY-MM-DD, the form the time service sends; the shorter spellings
    strptime also takes (a one-digit month or day) are left out, which is why
    the synchronizer takes its parser as a parameter. *)
Definition strptime_iso (s : string) : option Z :=
  match s with
  | String y1 (String y2 (String y3 (String y4 (String "-" (String m1
      (String m2 (String "-" (String d1 (String d2 EmptyString))))))))) =>
      match number2 y1 y2, number2 y3 y4, number2 m1 m2, number2 d1 d2 with
      | Some yh, Some yl, Some m, Some d =>
          let y := 100 * yh + yl in
          if (1 <=? y) && (1 <=? m) && (m <=? 12) && (1 <=? d)
             && (d <=? days_in_month (is_leap y) m)
          then Some (ymd2ord y m d) else None
      | _, _, _, _ => None
      end
  | _ => None
  end.

End Date.

(** ** Rows and the table

    One row of [timesheet].  [entry_id] and [ticket] are the two columns the
    script leaves NULL; [minutes] is the exact rational value of the number
    SQLite keeps (the script writes [timeSpentSeconds / 60], a float, and a
    number typed on the command line); rounding of floats is outside the
    model. *)
Record row := {
  id : Z;
  entry_id : option Z;
  day : string;
  ticket : option string;
  description : string;
  minutes : Q;
  project : string
}.

(** Modelled from the spec: the schema is not created by the script; the
    spec gives [timesheet(id PK autoincrement, entry_id, day, ticket,
    description, minutes, project)] with no other constraint.  [rows] are in
    rowid order and [seq] is the largest rowid ever handed out (SQLite's
    [sqlite_sequence] entry of an AUTOINCREMENT table). *)
Record db := { rows : list row; seq : Z }.

Definition empty_db : db := {| rows := []; seq := 0 |}.

(** [SELECT MAX(id) FROM timesheet]: NULL on the empty table. *)
Fixpoint max_id (t : list row) : option Z :=
  match t with
  | [] => None
  | r :: t' => match max_id t' with
               | None => Some (id r)
               | Some m => Some (Z.max (id r) m)
               end
  end.

Definition next_rowid (d : db) : Z :=
  1 + Z.max (seq d) (default 0 (max_id (rows d))).

(** [INSERT INTO timesheet (...) VALUES (...)]: the row gets a fresh rowid
    and goes last; a column the statement does not list is NULL. *)
Definition sql_insert (eid : option Z) (dy : string) (tk : option string)
    (desc : string) (mins : Q) (proj : string) (d : db) : db :=
  let n := next_rowid d in
  {| rows := rows d ++ [ {| id := n; entry_id := eid; day := dy; ticket := tk;
                            description := desc; minutes := mins;
                            project := proj |} ];
     seq := n |}.

(** [entry_id = ?] under SQL's three-valued equality: a NULL on either side
    is never a match. *)
Definition entry_id_is (eid : option Z) (r : row) : bool :=
  match eid, entry_id r with
  | Some a, Some b => a =? b
  | _, _ => false
  end.

Definition set_fields (tk : option string) (desc : string) (mins : Q)
    (proj dy : string) (r : row) : row :=
  {| id := id r; entry_id := entry_id r; day := dy; ticket := tk;
     description := desc; minutes := mins; project := proj |}.

(** [UPDATE timesheet SET ticket=?, description=?, minutes=?, project=?,
    day=? WHERE entry_id=?], with the cursor's [rowcount]. *)
Definition sql_update (tk : option string) (desc : string) (mins : Q)
    (proj dy : string) (eid : option Z) (d : db) : db * nat :=
  ({| rows := map (fun r => if entry_id_is eid r
                            then set_fields tk desc mins proj dy r else r)
                  (rows d);
      seq := seq d |},
   length (List.filter (entry_id_is eid) (rows d))).

(** [DELETE FROM timesheet WHERE id=(SELECT MAX(id) FROM timesheet)]. *)
Definition is_max_id (m : option Z) (r : row) : bool :=
  match m with
  | Some k => id r =? k
  | None => false
  end.

Definition sql_delete_max (d : db) : db :=
  {| rows := List.filter (fun r => negb (is_max_id (max_id (rows d)) r)) (rows d);
     seq := seq d |}.

(** ** Connections and failures

    A [sqlite3] connection in its default mode: statements change a working
    copy inside an implicit transaction, [commit] makes the working copy the
    persisted table, and a connection that goes away without a commit leaves
    the persisted table as it was. *)
Record conn := { disk : db; work : db; commits : nat }.

Definition open_connection (d : db) : conn :=
  {| disk := d; work := d; commits := 0 |}.

Definition execute (stmt : db -> db) (c : conn) : conn :=
  {| disk := disk c; work := stmt (work c); commits := commits c |}.

Definition commit (c : conn) : conn :=
  {| disk := work c; work := work c; commits := S (commits c) |}.

(** The exceptions the modelled calls can raise. *)
Inductive exn := HTTPError | ValueError | OverflowError.

Inductive result (A : Type) :=
| Ok (a : A)
| Raise (e : exn).
Arguments Ok {A} a.
Arguments Raise {A} e.

(** ** Queries *)

(** [WHERE day >= ?]: text comparison, byte by byte. *)
Definition in_window (start : string) (r : row) : bool :=
  String.leb start (day r).

Definition select_window (start : string) (t : list row) : list row :=
  List.filter (in_window start) t.

(** [ORDER BY 1] on the day column; rows of one day stay in rowid order. *)
Fixpoint insert_by_day (r : row) (l : list row) : list row :=
  match l with
  | [] => [r]
  | x :: l' => if String.leb (day r) (day x) then r :: l
               else x :: insert_by_day r l'
  end.

Definition order_by_day (t : list row) : list row :=
  fold_right insert_by_day [] t.

(** The keys of a GROUP BY, each once, in ascending order (the order SQLite's
    sorter produces; only the per-day query asks for it). *)
Fixpoint insert_key (k : string) (ks : list string) : list string :=
  match ks with
  | [] => [k]
  | k' :: ks' => if String.leb k k' then k :: ks else k' :: insert_key k ks'
  end.

Definition group_keys (ks : list string) : list string :=
  fold_right insert_key [] (remove_dups ks).

(** [SUM(minutes)] over a group, as the exact sum of the values (SQLite
    adds the floats among them with rounding). *)
Definition sum_minutes (t : list row) : Q :=
  fold_right (fun r acc => (minutes r + acc)%Q) (0%Q) t.

Definition group_of (key : row -> string) (k : string) (t : list row) : list row :=
  List.filter (fun r => String.eqb (key r) k) t.

(** [SELECT project, sum(minutes)/60.0 FROM timesheet WHERE day >= ?
    GROUP BY 1]. *)
Definition select_project_hours (start : string) (t : list row) : list (string * Q) :=
  let w := select_window start t in
  map (fun p => (p, (sum_minutes (group_of project p w) / 60)%Q))
      (group_keys (map project w)).

(** [SELECT day, SUM(minutes) FROM timesheet WHERE day >= ? GROUP BY day
    ORDER BY 1]. *)
Definition select_day_minutes (start : string) (t : list row) : list (string * Q) :=
  let w := select_window start t in
  map (fun dy => (dy, sum_minutes (group_of day dy w)))
      (group_keys (map day w)).

(** [SELECT day, ticket, description, minutes, project FROM timesheet
    WHERE day >= ? ORDER BY 1]. *)
Definition select_latest (start : string) (t : list row) : list row :=
  order_by_day (select_window start t).

(** ** report and latest *)
Section Reporter.

(** How Python prints a float ([str] of a float inside an f-string). *)
Variable float_str : Q -> string.

Definition project_line (r : string * Q) : string :=
  fst r ++ ": " ++ float_str (snd r) ++ " hours".

Definition day_line (r : string * Q) : string :=
  fst r ++ ": Total " ++ float_str (snd r / 60)%Q ++ " hours".

(** [row[1] or 'no ticket'] *)
Definition ticket_or_none (tk : option string) : string :=
  match tk with
  | None | Some "" => "no ticket"
  | Some s => s
  end.

Definition latest_line (r : row) : string :=
  day r ++ ": " ++ project r ++ " (" ++ ticket_or_none (ticket r) ++ ") "
        ++ description r ++ " [" ++ float_str (minutes r / 60)%Q ++ " hours]".

(** The start of the window, [(today - timedelta(days=horizon))
    .strftime("%Y-%m-%d")]. *)
Definition window_start (today horizon : Z) : result string :=
  match Date.sub_days today horizon with
  | Some n => Ok (Date.strftime n)
  | None => Raise OverflowError
  end.

Definition report_projects (start : string) (d : db) : list string :=
  map project_line (select_project_hours start (rows d)).

Definition report_days (start : string) (d : db) : list string :=
  map day_line (select_day_minutes start (rows d)).

Definition report (d : db) (today horizon : Z) : result (list string) :=
  match window_start today horizon with
  | Raise e => Raise e
  | Ok start => Ok (report_projects start d ++ [""] ++ report_days start d)%list
  end.

Definition latest_entries (start : string) (d : db) : list string :=
  map latest_line (select_latest start (rows d)).

Definition latest (d : db) (today horizon : Z) : result (list string) :=
  match window_start today horizon with
  | Raise e => Raise e
  | Ok start =>
      match report d today horizon with
      | Raise e => Raise e
      | Ok rep => Ok (latest_entries start d ++ [""] ++ rep)%list
      end
  end.

(** ** create and remove *)

Definition upper_ascii (c : ascii) : ascii :=
  let n := nat_of_ascii c in
  if (97 <=? n)%nat && (n <=? 122)%nat then ascii_of_nat (n - 32) else c.

(** [str.upper] on strings of ASCII characters: the letters a to z go to
    A to Z and every other byte stays.  Python's [str.upper] also maps the
    letters outside ASCII ("straße" to "STRASSE"), which a byte string does
    not carry; what is said below of the project code [create] stores is
    said of ASCII codes ([is_ascii_string]). *)
Fixpoint upper (s : string) : string :=
  match s with
  | EmptyString => EmptyString
  | String c s' => String (upper_ascii c) (upper s')
  end.

(** What a command leaves behind: the persisted table and what it printed
    (or the exception it ended with). *)
Record run := { persisted : db; printed : result (list string) }.

Definition create (d : db) (today : Z) (proj : string) (mins : Q)
    (desc : string) (tk : option string) (dy : string) : run :=
  let c := open_connection d in
  let c := execute (sql_insert None dy tk desc mins (upper proj)) c in
  let c := commit c in
  {| persisted := disk c; printed := latest (disk c) today 0 |}.

Definition remove (d : db) (today : Z) : run :=
  let c := open_connection d in
  let c := execute sql_delete_max c in
  let c := commit c in
  {| persisted := disk c; printed := latest (disk c) today 0 |}.

End Reporter.

(** ** sync *)

(** One element of the time service's JSON array: [entry['id']] (a JSON null
    is [None]), [entry['timeSpentSeconds']], [entry['started']] and
    [entry['issue']['id']]. *)
Record entry := {
  ent_id : option Z;
  timeSpentSeconds : Z;
  started : string;
  issue : Z
}.

(** The issue tracker's JSON object: [key] and [fields.summary]. *)
Record issue_json := { json_key : string; json_summary : string }.

(** The dictionary [jira_issue_info] returns. *)
Module IssueInfo.
Record t := { key : string; summary : string; project : string }.
End IssueInfo.

(** The state [sync] threads through its loop: the memo dictionary, the
    connection, and the issue ids requested from the tracker so far, oldest
    first (the trace of the HTTP calls). *)
Record sync_state := {
  issue_map : gmap Z IssueInfo.t;
  requests : list Z;
  db_conn : conn
}.

Definition M (A : Type) : Type := sync_state -> sync_state * result A.

Definition ret {A} (a : A) : M A := fun st => (st, Ok a).

Definition raise {A} (e : exn) : M A := fun st => (st, Raise e).

Definition bind {A B} (m : M A) (k : A -> M B) : M B :=
  fun st => match m st with
            | (st', Ok a) => k a st'
            | (st', Raise e) => (st', Raise e)
            end.

Notation "'let*' x ':=' m 'in' k" := (bind m (fun x => k))
  (at level 10, x name, m at level 100, k at level 200).

Definition memo_get (k : Z) : M (option IssueInfo.t) :=
  fun st => (st, Ok (issue_map st !! k)).

Definition memo_set (k : Z) (i : IssueInfo.t) : M unit :=
  fun st => ({| issue_map := <[k := i]> (issue_map st);
                requests := requests st;
                db_conn := db_conn st |}, Ok tt).

Definition on_work (stmt : db -> db) : M unit :=
  fun st => ({| issue_map := issue_map st;
                requests := requests st;
                db_conn := execute stmt (db_conn st) |}, Ok tt).

(** The dictionary built from the tracker's answer: [key], [summary] and
    [key[:3]]. *)
Definition issue_info_of (j : issue_json) : IssueInfo.t :=
  {| IssueInfo.key := json_key j;
     IssueInfo.summary := json_summary j;
     IssueInfo.project := substring 0 3 (json_key j) |}.

Section Synchronizer.

(** The time service: the answer to the request for the window between two
    ISO dates, [None] when [raise_for_status] raises. *)
Variable clockwork : string -> string -> option (list entry).

(** The issue tracker: the answer for an issue id, which may depend on the
    requests already made; [None] when [raise_for_status] raises. *)
Variable jira : list Z -> Z -> option issue_json.

(** [datetime.datetime.strptime(s, '%Y-%m-%d')] as a date ordinal, [None]
    when it raises ValueError. *)
Variable strptime : string -> option Z.

Definition jira_issue_info (issue_id : Z) : M IssueInfo.t :=
  fun st =>
    let st' := {| issue_map := issue_map st;
                  requests := (requests st ++ [issue_id])%list;
                  db_conn := db_conn st |} in
    match jira (requests st) issue_id with
    | None => (st', Raise HTTPError)
    | Some j => (st', Ok (issue_info_of j))
    end.

(** [issue_map.get(issue_id)], filled from the tracker when absent (a stored
    dictionary has three keys, so [not issue_info] is true only for None). *)
Definition resolve (issue_id : Z) : M IssueInfo.t :=
  let* cached := memo_get issue_id in
  match cached with
  | Some info => ret info
  | None =>
      let* info := jira_issue_info issue_id in
      let* _ := memo_set issue_id info in
      ret info
  end.

(** The UPDATE, then the INSERT when [rowcount] is 0. *)
Definition upsert (eid : option Z) (info : IssueInfo.t) (mins : Q)
    (dy : string) (d : db) : db :=
  let '(d', rowcount) :=
    sql_update (Some (IssueInfo.key info)) (IssueInfo.summary info) mins
               (IssueInfo.project info) dy eid d in
  if (rowcount =? 0)%nat
  then sql_insert eid dy (Some (IssueInfo.key info)) (IssueInfo.summary info)
                  mins (IssueInfo.project info) d'
  else d'.

Definition entry_minutes (e : entry) : Q := (inject_Z (timeSpentSeconds e) / 60)%Q.

Definition entry_day (e : entry) : M string :=
  match strptime (substring 0 10 (started e)) with
  | Some n => ret (Date.strftime n)
  | None => raise ValueError
  end.

(** [entry['timeSpentSeconds'] / 60] is the float nearest to the quotient;
    Python raises OverflowError when that is beyond the largest float, which
    is when the quotient reaches 2^1024 - 2^970 in absolute value. *)
Definition true_div_overflows (seconds : Z) : bool :=
  60 * (2 ^ 1024 - 2 ^ 970) <=? Z.abs seconds.

Definition checked_minutes (e : entry) : M Q :=
  if true_div_overflows (timeSpentSeconds e) then raise OverflowError
  else ret (entry_minutes e).

(** Binding the entry id to the [?] of the UPDATE: sqlite3 takes an integer
    of 64 bits and raises OverflowError for a larger one. *)
Definition fits_sqlite_integer (v : option Z) : bool :=
  match v with
  | Some k => (- 2 ^ 63 <=? k) && (k <? 2 ^ 63)
  | None => true
  end.

Definition bind_entry_id (eid : option Z) : M unit :=
  if fits_sqlite_integer eid then ret tt else raise OverflowError.

(** The body of the loop; it hands back the issue info it wrote the row
    with. *)
Definition sync_entry (e : entry) : M IssueInfo.t :=
  let* mins := checked_minutes e in
  let* dy := entry_day e in
  let* info := resolve (issue e) in
  let* _ := bind_entry_id (ent_id e) in
  let* _ := on_work (upsert (ent_id e) info mins dy) in
  ret info.

Fixpoint sync_entries (es : list entry) : M (list IssueInfo.t) :=
  match es with
  | [] => ret []
  | e :: es' =>
      let* info := sync_entry e in
      let* infos := sync_entries es' in
      ret (info :: infos)
  end.

Definition sync_start (d : db) : sync_state :=
  {| issue_map := ∅; requests := []; db_conn := open_connection d |}.

Definition get_clockwork_records (today horizon : Z) : M (list entry) :=
  match Date.sub_days today horizon with
  | None => raise OverflowError
  | Some start =>
      match clockwork (Date.strftime start) (Date.strftime today) with
      | Some entries => ret entries
      | None => raise HTTPError
      end
  end.

Definition sync_run (today horizon : Z) : M (list IssueInfo.t) :=
  let* entries := get_clockwork_records today horizon in
  let* infos := sync_entries entries in
  fun st => ({| issue_map := issue_map st;
                requests := requests st;
                db_conn := commit (db_conn st) |}, Ok infos).

Definition sync (d : db) (today horizon : Z) : sync_state * result (list IssueInfo.t) :=
  sync_run today horizon (sync_start d).

(** The table on disk once the process that ran [sync] is gone. *)
Definition sync_persisted (d : db) (today horizon : Z) : db :=
  disk (db_conn (fst (sync d today horizon))).

(** [n] invocations of [sync] over the same external data, one after the
    other. *)
Fixpoint sync_times (n : nat) (d : db) (today horizon : Z) : db :=
  match n with
  | O => d
  | S n' => sync_persisted (sync_times n' d today horizon) today horizon
  end.

(** The ways one turn of the loop can go (see [sync_entry_turn]). *)
Inductive turn (e : entry) (st : sync_state) : sync_state -> result IssueInfo.t -> Prop :=
| turn_minutes_overflow :
    true_div_overflows (timeSpentSeconds e) = true ->
    turn e st st (Raise OverflowError)
| turn_bad_date :
    true_div_overflows (timeSpentSeconds e) = false ->
    strptime (substring 0 10 (started e)) = None ->
    turn e st st (Raise ValueError)
| turn_cached n info :
    true_div_overflows (timeSpentSeconds e) = false ->
    strptime (substring 0 10 (started e)) = Some n ->
    issue_map st !! issue e = Some info ->
    fits_sqlite_integer (ent_id e) = true ->
    turn e st
      {| issue_map := issue_map st; requests := requests st;
         db_conn := execute (upsert (ent_id e) info (entry_minutes e) (Date.strftime n))
                            (db_conn st) |}
      (Ok info)
| turn_cached_unbound n info :
    true_div_overflows (timeSpentSeconds e) = false ->
    strptime (substring 0 10 (started e)) = Some n ->
    issue_map st !! issue e = Some info ->
    fits_sqlite_integer (ent_id e) = false ->
    turn e st st (Raise OverflowError)
| turn_http_error n :
    true_div_overflows (timeSpentSeconds e) = false ->
    strptime (substring 0 10 (started e)) = Some n ->
    issue_map st !! issue e = None ->
    jira (requests st) (issue e) = None ->
    turn e st
      {| issue_map := issue_map st; requests := (requests st ++ [issue e])%list;
         db_conn := db_conn st |}
      (Raise HTTPError)
| turn_fetched n j :
    true_div_overflows (timeSpentSeconds e) = false ->
    strptime (substring 0 10 (started e)) = Some n ->
    issue_map st !! issue e = None ->
    jira (requests st) (issue e) = Some j ->
    fits_sqlite_integer (ent_id e) = true ->
    turn e st
      {| issue_map := <[issue e := issue_info_of j]> (issue_map st);
         requests := (requests st ++ [issue e])%list;
         db_conn := execute (upsert (ent_id e) (issue_info_of j) (entry_minutes e)
                                    (Date.strftime n))
                            (db_conn st) |}
      (Ok (issue_info_of j))
| turn_fetched_unbound n j :
    true_div_overflows (timeSpentSeconds e) = false ->
    strptime (substring 0 10 (started e)) = Some n ->
    issue_map st !! issue e = None ->
    jira (requests st) (issue e) = Some j ->
    fits_sqlite_integer (ent_id e) = false ->
    turn e st
      {| issue_map := <[issue e := issue_info_of j]> (issue_map st);
         requests := (requests st ++ [issue e])%list;
         db_conn := db_conn st |}
      (Raise OverflowError).

(** The runs of the loop, one turn after the other until an exception (see
    [sync_entries_turns]). *)
Inductive turns : list entry -> sync_state -> sync_state
                  -> result (list IssueInfo.t) -> Prop :=
| turns_done st : turns [] st st (Ok [])
| turns_raise e es st st1 x :
    turn e st st1 (Raise x) -> turns (e :: es) st st1 (Raise x)
| turns_next e es st st1 info st2 r :
    turn e st st1 (Ok info) ->
    turns es st1 st2 r ->
    turns (e :: es) st st2
          (match r with Ok infos => Ok (info :: infos) | Raise x => Raise x end).

(** The table after writing the rows of the entries with the given issue
    infos, in order. *)
Definition write_entry (e : entry) (info : IssueInfo.t) (w : db) : db :=
  match strptime (substring 0 10 (started e)) with
  | Some n => upsert (ent_id e) info (entry_minutes e) (Date.strftime n) w
  | None => w
  end.

Fixpoint write_entries (es : list entry) (infos : list IssueInfo.t) (w : db) : db :=
  match es, infos with
  | e :: es', info :: infos' => write_entries es' infos' (write_entry e info w)
  | _, _ => w
  end.

(** The memo dictionary agrees with the trace of requests: no issue id was
    requested twice, every requested id is in the dictionary, and a stored
    info is the tracker's answer to the request made for its id. *)
Definition memo_ok (st : sync_state) : Prop :=
  NoDup (requests st)
  /\ (forall k, In k (requests st) -> is_Some (issue_map st !! k))
  /\ (forall k info, issue_map st !! k = Some info ->
        exists pre post j,
          requests st = (pre ++ k :: post)%list
          /\ jira pre k = Some j /\ info = issue_info_of j).

End Synchronizer.

(** ** Properties of tables and of runs, for the statements below *)

(** The rows a report line stands for: those of the table with
    [day >= start] whose key column is [k]. *)
Definition rows_of (key : row -> string) (start k : string) (t : list row) : list row :=
  List.filter (fun r => String.leb start (day r) && String.eqb (key r) k) t.

Definition rows_with_entry_id (k : Z) (t : list row) : list row :=
  List.filter (entry_id_is (Some k)) t.

(** At most one row per external entry id. *)
Definition unique_entry_ids (d : db) : Prop :=
  forall k, (List.length (rows_with_entry_id k (rows d)) <= 1)%nat.

(** The rowid is a key. *)
Definition id_is_key (d : db) : Prop := NoDup (map id (rows d)).

Definition minutes_nonneg (d : db) : Prop :=
  forall r, In r (rows d) -> (0 <= minutes r)%Q.

(** Some row of the table carries the entry id [k]. *)
Definition has_entry_id (k : Z) (d : db) : Prop :=
  exists r, In r (rows d) /\ entry_id r = Some k.

(** The tables the commands produce from the empty table, whatever the
    clock, the arguments and the external services are. *)
Inductive reachable : db -> Prop :=
| reach_empty : reachable empty_db
| reach_create float_str d today proj mins desc tk dy :
    reachable d ->
    reachable (persisted (create float_str d today proj mins desc tk dy))
| reach_remove float_str d today :
    reachable d -> reachable (persisted (remove float_str d today))
| reach_sync clockwork jira strptime d today horizon :
    reachable d ->
    reachable (sync_persisted clockwork jira strptime d today horizon).

(** The row the upsert rewrites a matching row into, and the row it inserts
    when there is none. *)
Definition updated_row (info : IssueInfo.t) (mins : Q) (dy : string) (r : row) : row :=
  set_fields (Some (IssueInfo.key info)) (IssueInfo.summary info) mins
             (IssueInfo.project info) dy r.

Definition inserted_row (eid : option Z) (info : IssueInfo.t) (mins : Q)
    (dy : string) (d : db) : row :=
  {| id := next_rowid d; entry_id := eid; day := dy;
     ticket := Some (IssueInfo.key info);
     description := IssueInfo.summary info; minutes := mins;
     project := IssueInfo.project info |}.

(** ** Concrete stand-ins for the examples *)

Fixpoint Z_digits (fuel : nat) (n : Z) (acc : string) : string :=
  match fuel with
  | O => acc
  | S fuel' =>
      let acc' := Date.digit n ++ acc in
      if n / 10 =? 0 then acc' else Z_digits fuel' (n / 10) acc'
  end.

Fixpoint fraction_digits (fuel : nat) (num den : Z) : string :=
  match fuel with
  | O => ""
  | S fuel' =>
      let n := 10 * num in
      Date.digit (n / den) ++
        (if n mod den =? 0 then "" else fraction_digits fuel' (n mod den) den)
  end.

(** The decimal expansion of a rational, written the way Python writes a
    float whose value is a short decimal: [1.5], [2.0], [-0.25]. *)
Definition decimal_str (q : Q) : string :=
  let n := Z.abs (Qnum q) in
  let d := Z.pos (Qden q) in
  (if Qnum q <? 0 then "-" else "") ++ Z_digits 20 (n / d) "" ++ "."
    ++ fraction_digits 17 (n mod d) d.

(** The table of the aggregation example: two entries of project ABC on
    2024-01-01 and one of XYZ on 2024-01-02, all typed in by hand. *)
Definition example_db : db :=
  {| rows :=
       [ {| id := 1; entry_id := None; day := "2024-01-01"; ticket := None;
            description := "planning"; minutes := 60; project := "ABC" |};
         {| id := 2; entry_id := None; day := "2024-01-01"; ticket := None;
            description := "review"; minutes := 30; project := "ABC" |};
         {| id := 3; entry_id := None; day := "2024-01-02"; ticket := Some "XYZ-7";
            description := "release"; minutes := 120; project := "XYZ" |} ];
     seq := 3 |}.

(** 2024-01-02 *)
Definition example_today : Z := 738887.

(** A time service that has two entries on one issue, and a tracker whose
    answer changes once it has been asked. *)
Definition example_clockwork (starting_at ending_at : string) : option (list entry) :=
  Some [ {| ent_id := Some 42; timeSpentSeconds := 5400;
            started := "2024-01-02T09:00:00.000Z"; issue := 1001 |};
         {| ent_id := Some 43; timeSpentSeconds := 1800;
            started := "2024-01-02T11:30:00.000Z"; issue := 1001 |} ].

Definition example_jira (earlier : list Z) (issue_id : Z) : option issue_json :=
  if issue_id =? 1001
  then Some {| json_key := "ABC-12";
               json_summary := match earlier with
                               | [] => "Fix login"
                               | _ => "Fix login (edited)"
                               end |}
  else None.

(** A time service whose second entry is on an issue the tracker refuses. *)
Definition failing_clockwork (starting_at ending_at : string) : option (list entry) :=
  Some [ {| ent_id := Some 42; timeSpentSeconds := 5400;
            started := "2024-01-02T09:00:00.000Z"; issue := 1001 |};
         {| ent_id := Some 44; timeSpentSeconds := 600;
            started := "2024-01-02T13:00:00.000Z"; issue := 2002 |} ].

(** A time service that reports a negative duration. *)
Definition negative_clockwork (starting_at ending_at : string) : option (list entry) :=
  Some [ {| ent_id := Some 45; timeSpentSeconds := -600;
            started := "2024-01-02T09:00:00.000Z"; issue := 1001 |} ].

(** The table after the first synchronization of the example. *)
Definition synced_db : db :=
  sync_persisted example_clockwork example_jira Date.strptime_iso
                 example_db example_today 1.

(** The per-day line as section 8 of the specification words it, with the
    raw sum of the minutes. *)
Definition day_line_raw (float_str : Q -> string) (r : string * Q) : string :=
  fst r ++ ": Total " ++ float_str (snd r) ++ " hours".

(** ** Further properties of tables, for the statements at the end *)

(** What identifies a row for good: its rowid and its entry id. *)
Definition row_key (r : row) : Z * option Z := (id r, entry_id r).

Definition is_lower_ascii (c : ascii) : bool :=
  let n := nat_of_ascii c in (97 <=? n)%nat && (n <=? 122)%nat.

(** The rowids increase along the table. *)
Definition ids_ascending (d : db) : Prop :=
  StronglySorted Z.lt (map id (rows d)).

(** The string has ASCII characters only, the strings on which [upper] is
    [str.upper]. *)
Definition is_ascii_string (s : string) : bool :=
  forallb (fun c => (nat_of_ascii c <? 128)%nat) (list_ascii_of_string s).

(** Rows by ascending day, and days in strictly ascending order. *)
Definition day_le (a b : row) : Prop := String.leb (day a) (day b) = true.

Definition key_lt (a b : string) : Prop := String.ltb a b = true.

(** The mutable columns of a row. *)
Definition fields (r : row) : option string * string * Q * string * string :=
  (ticket r, description r, minutes r, project r, day r).

(** What the UPDATE of the entry [e], resolved to [info], makes of a row. *)
Definition row_update (strptime : string -> option Z) (e : entry)
    (info : IssueInfo.t) (r : row) : row :=
  match strptime (substring 0 10 (started e)) with
  | Some n => if entry_id_is (ent_id e) r
              then updated_row info (entry_minutes e) (Date.strftime n) r
              else r
  | None => r
  end.

Fixpoint row_updates (strptime : string -> option Z) (es : list entry)
    (infos : list IssueInfo.t) (r : row) : row :=
  match es, infos with
  | e :: es', info :: infos' =>
      row_updates strptime es' infos' (row_update strptime e info r)
  | _, _ => r
  end.

(** A row that came from the time service has the ticket of its issue and,
    as project, the first three characters of that ticket. *)
Definition project_from_ticket (d : db) : Prop :=
  forall r, In r (rows d) -> entry_id r <> None ->
    exists key, ticket r = Some key /\ project r = substring 0 3 key.

(** A time service whose entries have no id. *)
Definition anonymous_clockwork (starting_at ending_at : string) : option (list entry) :=
  Some [ {| ent_id := None; timeSpentSeconds := 900;
            started := "2024-01-02T15:00:00.000Z"; issue := 1001 |} ].

(** A time service that reports more seconds than a float can hold once
    divided by 60, and one whose entry id is beyond 64 bits. *)
Definition endless_clockwork (starting_at ending_at : string) : option (list entry) :=
  Some [ {| ent_id := Some 46; timeSpentSeconds := 60 * 2 ^ 1024;
            started := "2024-01-02T09:00:00.000Z"; issue := 1001 |} ].

Definition wide_id_clockwork (starting_at ending_at : string) : option (list entry) :=
  Some [ {| ent_id := Some (2 ^ 63); timeSpentSeconds := 600;
            started := "2024-01-02T09:00:00.000Z"; issue := 1001 |} ].

(** A time service with nothing to report. *)
Definition empty_clockwork (starting_at ending_at : string) : option (list entry) :=
  Some [].

(** * Properties *)

Example strftime_2024_01_01 : Date.strftime 738886 = "2024-01-01".
Proof. reflexivity. Qed.

Example strftime_2024_02_29 : Date.strftime 738945 = "2024-02-29".
Proof. reflexivity. Qed.

Example strftime_2023_12_31 : Date.strftime 738885 = "2023-12-31".
Proof. reflexivity. Qed.


Example strptime_iso_2024_01_01 : Date.strptime_iso "2024-01-01" = Some 738886.
Proof. reflexivity. Qed.

Example strptime_iso_rejects : Date.strptime_iso "2024-02-30" = None.
Proof. reflexivity. Qed.

Example decimal_str_examples :
  decimal_str (90 / 60) = "1.5" /\ decimal_str (120 / 60) = "2.0"
  /\ decimal_str (-1 / 4) = "-0.25" /\ decimal_str 90 = "90.0".
Proof. repeat split; reflexivity. Qed.

(** ** The table: rowids *)

Lemma leb_refl (s : string) : String.leb s s = true.
Proof.
  unfold String.leb.
  assert (H : String.compare s s = Eq).
  { induction s as [|c s IH]; simpl; [reflexivity|].
    unfold Ascii.compare. rewrite N.compare_refl. exact IH. }
  rewrite H. reflexivity.
Qed.

Lemma max_id_nil (t : list row) : max_id t = None <-> t = [].
Proof.
  destruct t as [|r t]; simpl; [tauto|].
  destruct (max_id t); split; discriminate.
Qed.

Lemma max_id_bound (t : list row) (m : Z) :
  max_id t = Some m -> forall r, In r t -> id r <= m.
Proof.
  revert m. induction t as [|x t IH]; simpl; intros m Hm r Hr; [tauto|].
  destruct (max_id t) as [k|] eqn:Hk.
  - injection Hm as <-. destruct Hr as [->|Hr]; [lia|].
    specialize (IH k eq_refl r Hr). lia.
  - injection Hm as <-. apply max_id_nil in Hk. subst t.
    destruct Hr as [->|[]]. lia.
Qed.

Lemma max_id_attained (t : list row) (m : Z) :
  max_id t = Some m -> exists r, In r t /\ id r = m.
Proof.
  revert m. induction t as [|x t IH]; simpl; intros m Hm; [discriminate|].
  destruct (max_id t) as [k|] eqn:Hk.
  - injection Hm as <-. destruct (Z.max_spec (id x) k) as [[_ ->]|[_ ->]].
    + destruct (IH k eq_refl) as (r & Hr & <-). eauto.
    + eauto.
  - injection Hm as <-. eauto.
Qed.

Lemma filter_all {A} (f : A -> bool) (l : list A) :
  (forall x, In x l -> f x = true) -> List.filter f l = l.
Proof.
  induction l as [|x l IH]; simpl; intros H; [reflexivity|].
  rewrite (H x (or_introl eq_refl)). f_equal. apply IH. intros y Hy. apply H. now right.
Qed.

(** Deleting the row of the largest id takes out one row and keeps the
    others, in order, when ids are a key. *)
Lemma sql_delete_max_split (d : db) :
  rows d <> [] -> NoDup (map id (rows d)) ->
  exists l1 r l2,
    rows d = (l1 ++ r :: l2)%list
    /\ rows (sql_delete_max d) = (l1 ++ l2)%list
    /\ max_id (rows d) = Some (id r)
    /\ forall r', In r' (rows d) -> id r' <= id r.
Proof.
  intros Hne Hnd.
  destruct (max_id (rows d)) as [m|] eqn:Hm; [|apply max_id_nil in Hm; contradiction].
  destruct (max_id_attained _ _ Hm) as (r & Hr & <-).
  destruct (in_split _ _ Hr) as (l1 & l2 & Hsplit).
  exists l1, r, l2. split; [exact Hsplit|]. split; [|split; [reflexivity|]].
  - unfold sql_delete_max. simpl. rewrite Hm, Hsplit.
    apply NoDup_ListNoDup in Hnd.
    rewrite Hsplit, map_app in Hnd. simpl in Hnd.
    apply List.NoDup_remove_2 in Hnd.
    rewrite List.filter_app. simpl. rewrite Z.eqb_refl. simpl.
    rewrite !filter_all; [reflexivity| |].
    + intros x Hx. apply negb_true_iff, Z.eqb_neq. intros Heq.
      apply Hnd, in_or_app. right. rewrite <- Heq. now apply in_map.
    + intros x Hx. apply negb_true_iff, Z.eqb_neq. intros Heq.
      apply Hnd, in_or_app. left. rewrite <- Heq. now apply in_map.
  - apply max_id_bound. exact Hm.
Qed.

Lemma sql_delete_max_empty (d : db) : rows d = [] -> sql_delete_max d = d.
Proof. destruct d as [t s]. simpl. intros ->. reflexivity. Qed.

Lemma sql_update_ids tk desc mins proj dy eid (d : db) :
  map id (rows (fst (sql_update tk desc mins proj dy eid d))) = map id (rows d).
Proof.
  simpl. rewrite map_map. apply map_ext. intros r.
  destruct (entry_id_is eid r); reflexivity.
Qed.

Lemma next_rowid_fresh (d : db) : ~ In (next_rowid d) (map id (rows d)).
Proof.
  intros Hin. apply in_map_iff in Hin. destruct Hin as (r & Hr & Hin).
  unfold next_rowid in Hr.
  destruct (max_id (rows d)) as [m|] eqn:Hm.
  - pose proof (max_id_bound _ _ Hm r Hin). simpl in Hr. lia.
  - apply max_id_nil in Hm. rewrite Hm in Hin. destruct Hin.
Qed.

Lemma sql_insert_key eid dy tk desc mins proj (d : db) :
  NoDup (map id (rows d)) ->
  NoDup (map id (rows (sql_insert eid dy tk desc mins proj d))).
Proof.
  intros Hnd. simpl. rewrite map_app. simpl.
  apply NoDup_app. split; [exact Hnd|]. split; [|apply NoDup_singleton].
  intros x Hx Hx'. apply list_elem_of_singleton in Hx'. subst x.
  apply list_elem_of_In in Hx. exact (next_rowid_fresh d Hx).
Qed.

(** ** The queries *)

Lemma insert_key_perm (k : string) (ks : list string) :
  Permutation (insert_key k ks) (k :: ks).
Proof.
  induction ks as [|x ks IH]; simpl; [reflexivity|].
  destruct (String.leb k x); [reflexivity|].
  rewrite IH. apply perm_swap.
Qed.

Lemma group_keys_perm (ks : list string) :
  Permutation (group_keys ks) (remove_dups ks).
Proof.
  unfold group_keys. induction (remove_dups ks) as [|k l IH]; simpl; [reflexivity|].
  rewrite insert_key_perm. now constructor.
Qed.

Lemma group_keys_NoDup (ks : list string) : NoDup (group_keys ks).
Proof. rewrite group_keys_perm. apply NoDup_remove_dups. Qed.

Lemma group_keys_In (k : string) (ks : list string) :
  In k (group_keys ks) <-> In k ks.
Proof.
  rewrite <- !list_elem_of_In, group_keys_perm. apply elem_of_remove_dups.
Qed.

Lemma insert_by_day_perm (r : row) (l : list row) :
  Permutation (insert_by_day r l) (r :: l).
Proof.
  induction l as [|x l IH]; simpl; [reflexivity|].
  destruct (String.leb (day r) (day x)); [reflexivity|].
  rewrite IH. apply perm_swap.
Qed.

Lemma order_by_day_perm (t : list row) : Permutation (order_by_day t) t.
Proof.
  induction t as [|r t IH]; simpl; [reflexivity|].
  rewrite insert_by_day_perm. now constructor.
Qed.

Lemma select_window_In (start : string) (t : list row) (r : row) :
  In r (select_window start t) <-> In r t /\ String.leb start (day r) = true.
Proof. unfold select_window. apply List.filter_In. Qed.

Lemma group_of_In (key : row -> string) (k : string) (t : list row) (r : row) :
  In r (group_of key k t) <-> In r t /\ key r = k.
Proof.
  unfold group_of. rewrite List.filter_In, String.eqb_eq. reflexivity.
Qed.

(** The groups of a GROUP BY: one per key that occurs in the window. *)
Lemma grouped_In (key : row -> string) (agg : list row -> Q)
    (w : list row) (k : string) (v : Q) :
  In (k, v) (map (fun k => (k, agg (group_of key k w))) (group_keys (map key w)))
  <-> (exists r, In r w /\ key r = k) /\ v = agg (group_of key k w).
Proof.
  rewrite in_map_iff. split.
  - intros (k' & Heq & Hin). injection Heq as -> ->. split; [|reflexivity].
    apply group_keys_In, in_map_iff in Hin. destruct Hin as (r & <- & Hr). eauto.
  - intros ((r & Hr & <-) & ->). exists (key r). split; [reflexivity|].
    apply group_keys_In, in_map. exact Hr.
Qed.

Lemma grouped_keys (key : row -> string) (agg : list row -> Q) (w : list row) :
  map fst (map (fun k => (k, agg (group_of key k w))) (group_keys (map key w)))
  = group_keys (map key w).
Proof. rewrite map_map. simpl. apply map_id. Qed.

Lemma filter_filter_andb {A} (f g : A -> bool) (l : list A) :
  List.filter f (List.filter g l) = List.filter (fun x => g x && f x) l.
Proof.
  induction l as [|x l IH]; simpl; [reflexivity|].
  destruct (g x); simpl; [destruct (f x)|]; rewrite ?IH; reflexivity.
Qed.

Lemma group_of_window (key : row -> string) (start k : string) (t : list row) :
  group_of key k (select_window start t) = rows_of key start k t.
Proof. unfold group_of, select_window, rows_of. apply filter_filter_andb. Qed.

Lemma window_keys (key : row -> string) (start k : string) (t : list row) :
  In k (group_keys (map key (select_window start t)))
  <-> exists r, In r t /\ String.leb start (day r) = true /\ key r = k.
Proof.
  rewrite group_keys_In, in_map_iff. split.
  - intros (r & <- & Hr). apply select_window_In in Hr. exists r. tauto.
  - intros (r & Hr & Hd & <-). exists r. split; [reflexivity|].
    apply select_window_In. tauto.
Qed.

Lemma window_start_inv (today horizon : Z) (start : string) :
  window_start today horizon = Ok start -> start = Date.strftime (today - horizon).
Proof.
  unfold window_start, Date.sub_days.
  destruct (_ && _); [|discriminate]. now intros [= <-].
Qed.

Section ReporterFacts.

Variable float_str : Q -> string.

Lemma report_inv (d : db) (today horizon : Z) (out : list string) :
  report float_str d today horizon = Ok out ->
  exists start,
    window_start today horizon = Ok start
    /\ out = (report_projects float_str start d ++ "" :: report_days float_str start d)%list.
Proof.
  unfold report. destruct (window_start today horizon) as [start|e]; [|discriminate].
  intros [= <-]. eauto.
Qed.

Lemma latest_inv (d : db) (today horizon : Z) (out : list string) :
  latest float_str d today horizon = Ok out ->
  exists start,
    window_start today horizon = Ok start
    /\ out = (latest_entries float_str start d ++ ""
              :: report_projects float_str start d ++ ""
              :: report_days float_str start d)%list.
Proof.
  unfold latest, report.
  destruct (window_start today horizon) as [start|e]; [|discriminate].
  intros [= <-]. eauto.
Qed.

Lemma report_projects_lines (start : string) (d : db) :
  report_projects float_str start d
  = map (fun p => p ++ ": "
                    ++ float_str (sum_minutes (rows_of project start p (rows d)) / 60)%Q
                    ++ " hours")
        (group_keys (map project (select_window start (rows d)))).
Proof.
  unfold report_projects, select_project_hours. rewrite map_map.
  apply map_ext. intros p. unfold project_line. simpl.
  now rewrite group_of_window.
Qed.

Lemma report_days_lines (start : string) (d : db) :
  report_days float_str start d
  = map (fun dy => dy ++ ": Total "
                     ++ float_str (sum_minutes (rows_of day start dy (rows d)) / 60)%Q
                     ++ " hours")
        (group_keys (map day (select_window start (rows d)))).
Proof.
  unfold report_days, select_day_minutes. rewrite map_map.
  apply map_ext. intros dy. unfold day_line. simpl.
  now rewrite group_of_window.
Qed.

(** C5: the first view of [report] is one line per project that has a row
    with [day >= today - horizon], reading
    [<project>: <SUM(minutes)/60> hours], the sum being taken over the rows
    of that project in the window. *)
Theorem report_project_view (d : db) (today horizon : Z) (out : list string) :
  report float_str d today horizon = Ok out ->
  let start := Date.strftime (today - horizon) in
  exists projects rest,
    out = (map (fun p => (p ++ ": "
                 ++ float_str (sum_minutes (rows_of project start p (rows d)) / 60)%Q
                 ++ " hours")%string) projects ++ "" :: rest)%list
    /\ NoDup projects
    /\ forall p, In p projects
         <-> exists r, In r (rows d) /\ String.leb start (day r) = true
                       /\ project r = p.
Proof.
  intros Hrep start.
  destruct (report_inv _ _ _ _ Hrep) as (s & Hs & ->).
  apply window_start_inv in Hs. fold start in Hs. subst s.
  exists (group_keys (map project (select_window start (rows d)))),
         (report_days float_str start d).
  split; [now rewrite report_projects_lines|].
  split; [apply group_keys_NoDup|].
  intros p. apply window_keys.
Qed.

(** C2, as the code has it: the second view of [report] is one line per day
    that has a row in the window, reading [<day>: Total <X> hours] with
    X = SUM(minutes)/60 for that day; the per-project view and [latest]
    divide by 60 as well. *)
Theorem report_day_view (d : db) (today horizon : Z) (out : list string) :
  latest float_str d today horizon = Ok out ->
  let start := Date.strftime (today - horizon) in
  exists days projects,
    let entry_lines :=
      map (fun r => (day r ++ ": " ++ project r ++ " ("
                 ++ ticket_or_none (ticket r) ++ ") " ++ description r ++ " ["
                 ++ float_str (minutes r / 60)%Q ++ " hours]")%string)
          (select_latest start (rows d)) in
    let project_lines :=
      map (fun p => (p ++ ": "
                 ++ float_str (sum_minutes (rows_of project start p (rows d)) / 60)%Q
                 ++ " hours")%string) projects in
    let day_lines :=
      map (fun dy => (dy ++ ": Total "
                 ++ float_str (sum_minutes (rows_of day start dy (rows d)) / 60)%Q
                 ++ " hours")%string) days in
    out = (entry_lines ++ "" :: project_lines ++ "" :: day_lines)%list
    /\ report float_str d today horizon = Ok (project_lines ++ "" :: day_lines)%list
    /\ NoDup days
    /\ forall dy, In dy days
         <-> exists r, In r (rows d) /\ String.leb start (day r) = true
                       /\ day r = dy.
Proof.
  intros Hlat start.
  destruct (latest_inv _ _ _ _ Hlat) as (s & Hs & ->).
  pose proof (window_start_inv _ _ _ Hs) as Heq. fold start in Heq. subst s.
  exists (group_keys (map day (select_window start (rows d)))),
         (group_keys (map project (select_window start (rows d)))).
  cbv zeta. rewrite <- report_projects_lines, <- report_days_lines.
  split; [reflexivity|]. split; [|split].
  - unfold report. now rewrite Hs.
  - apply group_keys_NoDup.
  - intros dy. apply window_keys.
Qed.

End ReporterFacts.

(** ** The window, create and remove *)
Section ManualEntries.

Variable float_str : Q -> string.

Lemma window_start_today (today : Z) :
  Date.valid today = true -> window_start today 0 = Ok (Date.strftime today).
Proof.
  intros Hv. unfold window_start, Date.sub_days.
  rewrite Z.sub_0_r, Hv. reflexivity.
Qed.

(** C7: for every horizon Python accepts (at most 999999999 days either
    way, [today - horizon] between 0001-01-01 and 9999-12-31), a row whose
    day is exactly the ISO date of [today - horizon] is in the window:
    [latest] lists it, and it is among the rows summed for its project line
    and for its day line in [report]. *)
Theorem window_lower_bound_inclusive (d : db) (today horizon : Z) (r : row) :
  Z.abs horizon <= 999999999 ->
  1 <= today - horizon <= 3652059 ->
  In r (rows d) ->
  day r = Date.strftime (today - horizon) ->
  let start := Date.strftime (today - horizon) in
  latest float_str d today horizon
    = Ok (latest_entries float_str start d ++ ""
          :: report_projects float_str start d ++ ""
          :: report_days float_str start d)%list
  /\ report float_str d today horizon
    = Ok (report_projects float_str start d ++ ""
          :: report_days float_str start d)%list
  /\ In (latest_line float_str r) (latest_entries float_str start d)
  /\ In r (rows_of project start (project r) (rows d))
  /\ In (project_line float_str
           (project r, (sum_minutes (rows_of project start (project r) (rows d)) / 60)%Q))
        (report_projects float_str start d)
  /\ In r (rows_of day start (day r) (rows d))
  /\ In (day_line float_str
           (day r, sum_minutes (rows_of day start (day r) (rows d))))
        (report_days float_str start d).
Proof.
  intros Hh Hrange Hr Hday start.
  assert (Hs : window_start today horizon = Ok start).
  { unfold window_start, Date.sub_days, Date.valid, Date.min_ordinal, Date.max_ordinal.
    rewrite (proj2 (Z.leb_le _ _) Hh).
    rewrite (proj2 (Z.leb_le _ _) (proj1 Hrange)).
    rewrite (proj2 (Z.leb_le _ _) (proj2 Hrange)). reflexivity. }
  fold start in Hday.
  assert (Hw : In r (select_window start (rows d))).
  { apply select_window_In. split; [exact Hr|]. rewrite Hday. apply leb_refl. }
  assert (Hrows : forall key, In r (rows_of key start (key r) (rows d))).
  { intros key. rewrite <- group_of_window. apply group_of_In. tauto. }
  split; [unfold latest, report; now rewrite Hs|].
  split; [unfold report; now rewrite Hs|].
  split.
  { unfold latest_entries, select_latest. apply in_map.
    apply list_elem_of_In. rewrite order_by_day_perm. now apply list_elem_of_In. }
  split; [apply Hrows|]. split; [|split; [apply Hrows|]].
  - unfold report_projects, select_project_hours. apply in_map.
    rewrite <- group_of_window.
    apply (grouped_In project (fun g => (sum_minutes g / 60)%Q)). eauto.
  - unfold report_days, select_day_minutes. apply in_map.
    rewrite <- group_of_window.
    apply (grouped_In day sum_minutes). eauto.
Qed.

Lemma create_rows (d : db) (today : Z) (proj : string) (mins : Q)
    (desc : string) (tk : option string) (dy : string) :
  rows (persisted (create float_str d today proj mins desc tk dy))
  = (rows d ++ [ {| id := next_rowid d; entry_id := None; day := dy;
                    ticket := tk; description := desc; minutes := mins;
                    project := upper proj |} ])%list.
Proof. reflexivity. Qed.

(** C6: on a non-empty table [remove] takes out one row, the one whose id
    is the largest, whatever its day, and leaves every other row as it
    was. *)
Theorem remove_deletes_max_id (d : db) (today : Z) :
  rows d <> [] ->
  NoDup (map id (rows d)) ->
  exists l1 r l2,
    rows d = (l1 ++ r :: l2)%list
    /\ rows (persisted (remove float_str d today)) = (l1 ++ l2)%list
    /\ forall r', In r' (rows d) -> id r' <= id r.
Proof.
  intros Hne Hnd.
  destruct (sql_delete_max_split d Hne Hnd) as (l1 & r & l2 & H1 & H2 & _ & H3).
  exists l1, r, l2. auto.
Qed.

(** C10: on the empty table [remove] changes nothing and ends normally,
    printing the empty listing of [latest(0)]: the blank line after the
    entries and the blank line between the two views of the report. *)
Theorem remove_on_empty_store (d : db) (today : Z) :
  Date.valid today = true ->
  rows d = [] ->
  remove float_str d today = {| persisted := d; printed := Ok [""; ""] |}.
Proof.
  intros Hv He. unfold remove. simpl.
  rewrite (sql_delete_max_empty d He).
  unfold latest, report. rewrite (window_start_today today Hv).
  unfold latest_entries, report_projects, report_days, select_latest,
    select_project_hours, select_day_minutes.
  rewrite He. reflexivity.
Qed.

End ManualEntries.

(** ** The upsert *)

Lemma map_if_never {A} (f : A -> bool) (g : A -> A) (l : list A) :
  (forall x, In x l -> f x = false) -> map (fun x => if f x then g x else x) l = l.
Proof.
  induction l as [|x l IH]; simpl; intros H; [reflexivity|].
  rewrite (H x (or_introl eq_refl)). f_equal. apply IH. intros y Hy. apply H. now right.
Qed.

Lemma length_filter_zero {A} (f : A -> bool) (l : list A) :
  List.length (List.filter f l) = 0%nat <-> forall x, In x l -> f x = false.
Proof.
  induction l as [|x l IH]; simpl; [tauto|].
  destruct (f x) eqn:Hx; simpl.
  - split; [discriminate|]. intros H. specialize (H x (or_introl eq_refl)). congruence.
  - rewrite IH. split.
    + intros H y [<-|Hy]; auto.
    + intros H y Hy. apply H. now right.
Qed.

Section UpsertFacts.

Variables (eid : option Z) (info : IssueInfo.t) (mins : Q) (dy : string).

(** No row carries the entry id: the UPDATE touches nothing and the row is
    inserted. *)
Lemma upsert_inserts (d : db) :
  (forall r, In r (rows d) -> entry_id_is eid r = false) ->
  upsert eid info mins dy d
  = {| rows := rows d ++ [inserted_row eid info mins dy d]; seq := next_rowid d |}.
Proof.
  intros Hno. unfold upsert, sql_update.
  rewrite (proj2 (length_filter_zero _ _) Hno). simpl.
  unfold sql_insert, next_rowid. simpl.
  rewrite (map_if_never _ _ _ Hno). reflexivity.
Qed.

(** Some row carries the entry id: the rows that do are rewritten in place
    and nothing is inserted. *)
Lemma upsert_updates (d : db) :
  (exists r, In r (rows d) /\ entry_id_is eid r = true) ->
  upsert eid info mins dy d
  = {| rows := map (fun r => if entry_id_is eid r then updated_row info mins dy r else r) (rows d);
       seq := seq d |}.
Proof.
  intros (r & Hr & Hm). unfold upsert, sql_update.
  destruct (List.length (List.filter (entry_id_is eid) (rows d))) as [|n] eqn:Hlen.
  - rewrite (proj1 (length_filter_zero _ _) Hlen r Hr) in Hm. discriminate.
  - reflexivity.
Qed.

Lemma upsert_cases (d : db) :
  ((forall r, In r (rows d) -> entry_id_is eid r = false)
   /\ upsert eid info mins dy d
      = {| rows := rows d ++ [inserted_row eid info mins dy d];
           seq := next_rowid d |})
  \/ ((exists r, In r (rows d) /\ entry_id_is eid r = true)
      /\ upsert eid info mins dy d
         = {| rows := map (fun r => if entry_id_is eid r then updated_row info mins dy r else r) (rows d);
              seq := seq d |}).
Proof.
  destruct (existsb (entry_id_is eid) (rows d)) eqn:Hex.
  - right. apply existsb_exists in Hex. split; [exact Hex|]. now apply upsert_updates.
  - left. assert (H : forall r, In r (rows d) -> entry_id_is eid r = false).
    { intros r Hr. destruct (entry_id_is eid r) eqn:Hm; [|reflexivity].
      assert (existsb (entry_id_is eid) (rows d) = true)
        by (apply existsb_exists; eauto). congruence. }
    split; [exact H|]. now apply upsert_inserts.
Qed.

End UpsertFacts.

(** ** What the upsert keeps *)

Lemma length_filter_map {A} (p : A -> bool) (f : A -> A) (l : list A) :
  (forall x, p (f x) = p x) ->
  List.length (List.filter p (map f l)) = List.length (List.filter p l).
Proof.
  intros H. induction l as [|x l IH]; simpl; [reflexivity|].
  rewrite H. destruct (p x); simpl; now rewrite IH.
Qed.

Lemma upsert_unique_entry_ids eid info mins dy (d : db) :
  unique_entry_ids d -> unique_entry_ids (upsert eid info mins dy d).
Proof.
  intros Hu k. unfold rows_with_entry_id.
  destruct (upsert_cases eid info mins dy d) as [[Hno ->]|[_ ->]]; cbn [rows].
  - set (new := inserted_row eid info mins dy d).
    rewrite List.filter_app, List.length_app.
    change (List.filter (entry_id_is (Some k)) [new])
      with (if entry_id_is (Some k) new then [new] else []).
    destruct (entry_id_is (Some k) new) eqn:Hk.
    + unfold entry_id_is in Hk. simpl in Hk. destruct eid as [b|]; [|discriminate].
      apply Z.eqb_eq in Hk. subst b.
      rewrite (proj2 (length_filter_zero _ _) Hno). simpl. lia.
    + specialize (Hu k). unfold rows_with_entry_id in Hu. simpl. lia.
  - rewrite length_filter_map; [apply Hu|].
    intros r. destruct (entry_id_is eid r); reflexivity.
Qed.

Lemma upsert_id_is_key eid info mins dy (d : db) :
  id_is_key d -> id_is_key (upsert eid info mins dy d).
Proof.
  unfold id_is_key. intros Hk.
  destruct (upsert_cases eid info mins dy d) as [[_ ->]|[_ ->]]; simpl.
  - exact (sql_insert_key eid dy (Some (IssueInfo.key info))
             (IssueInfo.summary info) mins (IssueInfo.project info) d Hk).
  - rewrite map_map.
    erewrite map_ext; [exact Hk|].
    intros r. destruct (entry_id_is eid r); reflexivity.
Qed.

(** A row without entry id is left alone by the upsert. *)
Lemma upsert_keeps_manual_row eid info mins dy (d : db) (r : row) :
  entry_id r = None -> In r (rows d) -> In r (rows (upsert eid info mins dy d)).
Proof.
  intros Hnull Hr.
  destruct (upsert_cases eid info mins dy d) as [[_ ->]|[_ ->]]; simpl.
  - apply in_or_app. now left.
  - apply in_map_iff. exists r. split; [|exact Hr].
    unfold entry_id_is. rewrite Hnull. now destruct eid.
Qed.

Lemma upsert_minutes eid info mins dy (d : db) (r : row) :
  In r (rows (upsert eid info mins dy d)) -> In r (rows d) \/ minutes r = mins.
Proof.
  destruct (upsert_cases eid info mins dy d) as [[_ ->]|[_ ->]]; simpl.
  - intros Hr. apply in_app_or in Hr. destruct Hr as [Hr|[<-|[]]]; auto.
  - intros Hr. apply in_map_iff in Hr. destruct Hr as (x & <- & Hx).
    destruct (entry_id_is eid x); auto.
Qed.

Lemma upsert_minutes_nonneg eid info mins dy (d : db) :
  (0 <= mins)%Q -> minutes_nonneg d -> minutes_nonneg (upsert eid info mins dy d).
Proof.
  intros Hm Hd r Hr. destruct (upsert_minutes _ _ _ _ _ _ Hr) as [Hin| ->]; auto.
Qed.

Lemma entry_id_is_Some (k : Z) (r : row) :
  entry_id_is (Some k) r = true <-> entry_id r = Some k.
Proof.
  unfold entry_id_is. destruct (entry_id r) as [b|].
  - rewrite Z.eqb_eq. split; congruence.
  - split; discriminate.
Qed.

Lemma omap_entry_id_In (k : Z) (t : list row) :
  In k (omap entry_id t) <-> exists r, In r t /\ entry_id r = Some k.
Proof.
  rewrite <- list_elem_of_In, list_elem_of_omap.
  split; intros (r & Hr & Hk); exists r; (split; [|exact Hk]);
    now apply list_elem_of_In.
Qed.

Lemma rows_with_entry_id_cons (k : Z) (r : row) (t : list row) :
  List.length (rows_with_entry_id k (r :: t))
  = ((if entry_id_is (Some k) r then 1 else 0)
     + List.length (rows_with_entry_id k t))%nat.
Proof.
  unfold rows_with_entry_id. cbn [List.filter].
  destruct (entry_id_is (Some k) r); reflexivity.
Qed.

Lemma omap_entry_id_cons (r : row) (t : list row) :
  omap entry_id (r :: t)
  = match entry_id r with
    | Some k => k :: omap entry_id t
    | None => omap entry_id t
    end.
Proof. reflexivity. Qed.

(** At most one row per entry id, said with the list of the entry ids of
    the table: none occurs twice. *)
Lemma unique_entry_ids_NoDup (d : db) :
  unique_entry_ids d <-> NoDup (omap entry_id (rows d)).
Proof.
  unfold unique_entry_ids.
  induction (rows d) as [|r t IH].
  - split; [intros _; apply NoDup_nil_2|intros _ k; simpl; lia].
  - rewrite omap_entry_id_cons.
    destruct (entry_id r) as [k0|] eqn:Hk0.
    + assert (Hr0 : forall k, entry_id_is (Some k) r = (k =? k0))
        by (intros k; unfold entry_id_is; now rewrite Hk0).
      split.
      * intros Hu. apply NoDup_cons. split.
        -- intros Hin. apply list_elem_of_In, omap_entry_id_In in Hin.
           destruct Hin as (r' & Hr' & Hk').
           specialize (Hu k0).
           rewrite rows_with_entry_id_cons, Hr0, Z.eqb_refl in Hu.
           assert (Hz : List.length (List.filter (entry_id_is (Some k0)) t) = 0%nat)
             by (unfold rows_with_entry_id in Hu; lia).
           apply entry_id_is_Some in Hk'.
           rewrite (proj1 (length_filter_zero _ _) Hz r' Hr') in Hk'. discriminate.
        -- apply IH. intros k. specialize (Hu k).
           rewrite rows_with_entry_id_cons in Hu. lia.
      * intros Hnd k. apply NoDup_cons in Hnd as [Hnot Hnd].
        rewrite rows_with_entry_id_cons, Hr0.
        destruct (k =? k0) eqn:Hkk; [|now apply IH].
        apply Z.eqb_eq in Hkk. subst k0.
        unfold rows_with_entry_id.
        rewrite (proj2 (length_filter_zero _ _)); [lia|].
        intros x Hx. destruct (entry_id_is (Some k) x) eqn:Hm; [|reflexivity].
        exfalso. apply Hnot, list_elem_of_In, omap_entry_id_In.
        exists x. split; [exact Hx|]. now apply entry_id_is_Some.
    + assert (Hr : forall k, entry_id_is (Some k) r = false)
        by (intros k; unfold entry_id_is; now rewrite Hk0).
      rewrite <- IH. split; intros Hu k; specialize (Hu k);
        rewrite rows_with_entry_id_cons, Hr in *; exact Hu.
Qed.

Lemma upsert_keeps_entry_id eid info mins dy (d : db) (k : Z) :
  has_entry_id k d -> has_entry_id k (upsert eid info mins dy d).
Proof.
  intros (r & Hr & Hk).
  destruct (upsert_cases eid info mins dy d) as [[_ ->]|[_ ->]]; cbn [rows].
  - exists r. split; [apply in_or_app; now left|exact Hk].
  - exists (if entry_id_is eid r then updated_row info mins dy r else r).
    split; [now apply (in_map (fun r => if entry_id_is eid r
                                        then updated_row info mins dy r else r))|].
    now destruct (entry_id_is eid r).
Qed.

Lemma upsert_has_entry_id info mins dy (d : db) (k : Z) :
  has_entry_id k (upsert (Some k) info mins dy d).
Proof.
  destruct (upsert_cases (Some k) info mins dy d) as [[_ Heq]|[(r & Hr & Hm) Heq]].
  - rewrite Heq. eexists. split; [apply in_or_app; right; now left|reflexivity].
  - apply upsert_keeps_entry_id. exists r. split; [exact Hr|].
    now apply entry_id_is_Some.
Qed.

(** An upsert on an entry id the table has inserts nothing: the rowids are
    the same, in the same order. *)
Lemma upsert_present_ids info mins dy (d : db) (k : Z) :
  has_entry_id k d ->
  map id (rows (upsert (Some k) info mins dy d)) = map id (rows d).
Proof.
  intros (r & Hr & Hk).
  rewrite (upsert_updates (Some k) info mins dy d).
  - cbn [rows]. rewrite map_map. apply map_ext.
    intros x. now destruct (entry_id_is (Some k) x).
  - exists r. split; [exact Hr|]. now apply entry_id_is_Some.
Qed.

(** ** The loop of sync *)
Section SyncFacts.

Variable clockwork : string -> string -> option (list entry).
Variable jira : list Z -> Z -> option issue_json.
Variable strptime : string -> option Z.

Local Abbreviation one_entry := (sync_entry jira strptime).
Local Abbreviation all_entries := (sync_entries jira strptime).
Local Abbreviation the_sync := (sync clockwork jira strptime).
Local Abbreviation the_sync_persisted := (sync_persisted clockwork jira strptime).
Local Abbreviation the_sync_times := (sync_times clockwork jira strptime).
Local Abbreviation a_turn := (turn jira strptime).
Local Abbreviation some_turns := (turns jira strptime).

Lemma sync_entry_turn (e : entry) (st : sync_state) :
  a_turn e st (fst (one_entry e st)) (snd (one_entry e st)).
Proof.
  unfold sync_entry, checked_minutes, bind_entry_id, entry_day, resolve, bind, memo_get.
  destruct (true_div_overflows (timeSpentSeconds e)) eqn:Hov;
    [destruct st; now apply turn_minutes_overflow|].
  simpl.
  destruct (strptime (substring 0 10 (started e))) as [n|] eqn:Hd; simpl.
  - destruct (issue_map st !! issue e) as [info|] eqn:Hm; simpl.
    + destruct (fits_sqlite_integer (ent_id e)) eqn:Hfit; simpl.
      * destruct st. eapply turn_cached; eassumption.
      * destruct st. eapply turn_cached_unbound; eassumption.
    + unfold jira_issue_info.
      destruct (jira (requests st) (issue e)) as [j|] eqn:Hj; simpl.
      * destruct (fits_sqlite_integer (ent_id e)) eqn:Hfit; simpl.
        -- eapply turn_fetched; eassumption.
        -- eapply turn_fetched_unbound; eassumption.
      * eapply turn_http_error; eassumption.
  - destruct st. now apply turn_bad_date.
Qed.

Lemma sync_entries_turns (es : list entry) (st : sync_state) :
  some_turns es st (fst (all_entries es st)) (snd (all_entries es st)).
Proof.
  revert st. induction es as [|e es IH]; intros st; simpl; [constructor|].
  unfold bind. pose proof (sync_entry_turn e st) as Ht.
  destruct (one_entry e st) as [st1 [info|x]]; simpl in Ht.
  - specialize (IH st1).
    destruct (all_entries es st1) as [st2 [infos|y]]; simpl in *.
    + exact (turns_next _ _ _ _ _ _ _ _ _ Ht IH).
    + exact (turns_next _ _ _ _ _ _ _ _ _ Ht IH).
  - simpl. now constructor.
Qed.

(** A run processes every entry or raises. *)
Lemma turns_length es st st' infos :
  some_turns es st st' (Ok infos) -> List.length infos = List.length es.
Proof.
  revert st st' infos. induction es as [|e es IH]; intros st st' infos Ht;
    inversion Ht; subst; [reflexivity|].
  destruct r as [is'|x]; [|discriminate].
  match goal with H : Ok _ = Ok _ |- _ => injection H as <- end.
  simpl. f_equal. eauto.
Qed.

(** The loop never commits: the persisted table and the number of commits
    are those of the connection it started with. *)
Lemma turn_no_commit e st st' r :
  a_turn e st st' r ->
  disk (db_conn st') = disk (db_conn st) /\ commits (db_conn st') = commits (db_conn st).
Proof. intros Ht. destruct Ht; simpl; auto. Qed.

Lemma turns_no_commit es st st' r :
  some_turns es st st' r ->
  disk (db_conn st') = disk (db_conn st) /\ commits (db_conn st') = commits (db_conn st).
Proof.
  induction 1 as [st|e es st st1 x Ht|e es st st1 info st2 r Ht Hts IH]; [auto| |].
  - exact (turn_no_commit _ _ _ _ Ht).
  - destruct (turn_no_commit _ _ _ _ Ht) as [H1 H2]. destruct IH as [H3 H4].
    split; congruence.
Qed.

(** A property of the working table that every upsert of the batch keeps is
    kept by the loop. *)
Lemma turns_work (P : db -> Prop) (good : entry -> Prop) :
  (forall e info dy w, good e -> P w ->
     P (upsert (ent_id e) info (entry_minutes e) dy w)) ->
  forall es st st' r,
    some_turns es st st' r -> Forall good es ->
    P (work (db_conn st)) -> P (work (db_conn st')).
Proof.
  intros Hstep es st st' r Ht.
  induction Ht as [st|e es st st1 x Ht|e es st st1 info st2 r Ht Hts IH];
    intros Hgood HP; [exact HP| |].
  - apply Forall_cons in Hgood as [He _].
    inversion Ht; subst; simpl; auto.
  - apply Forall_cons in Hgood as [He Hes]. apply IH; [exact Hes|].
    inversion Ht; subst; simpl; auto.
Qed.

(** The rows the loop writes are those of the infos it hands back. *)
Lemma turns_writes es st st' infos :
  some_turns es st st' (Ok infos) ->
  work (db_conn st') = write_entries strptime es infos (work (db_conn st)).
Proof.
  revert st st' infos. induction es as [|e es IH]; intros st st' infos Ht;
    inversion Ht; subst; [reflexivity|].
  destruct r as [is'|x]; [|discriminate].
  match goal with H : Ok _ = Ok _ |- _ => injection H as <- end.
  simpl. erewrite IH by eassumption. f_equal.
  match goal with H : turn _ _ _ _ _ (Ok _) |- _ => inversion H; subst end;
    unfold write_entry; simpl;
    match goal with H : strptime _ = Some _ |- _ => now rewrite H end.
Qed.

Lemma turn_ok_work e st st' info :
  a_turn e st st' (Ok info) ->
  exists dy, work (db_conn st')
             = upsert (ent_id e) info (entry_minutes e) dy (work (db_conn st)).
Proof. intros Ht. inversion Ht; subst; simpl; eauto. Qed.

(** After a run that ends normally every entry id of the batch is in the
    working table. *)
Lemma turns_covers es st st' infos :
  some_turns es st st' (Ok infos) ->
  forall e k, In e es -> ent_id e = Some k -> has_entry_id k (work (db_conn st')).
Proof.
  revert st st' infos. induction es as [|e0 es IH]; intros st st' infos Ht e k He Hk;
    [destruct He|].
  inversion Ht; subst.
  destruct r as [is'|x]; [|discriminate].
  destruct He as [<-|He]; [|eauto].
  match goal with H : turn _ _ _ _ _ (Ok _) |- _ =>
    destruct (turn_ok_work _ _ _ _ H) as (dy & Hw) end.
  match goal with H : turns _ _ _ _ _ _ |- _ =>
    apply (turns_work (has_entry_id k) (fun _ => True)
             (fun e info dy w _ => upsert_keeps_entry_id _ _ _ _ w k) _ _ _ _ H) end.
  - now apply Forall_forall.
  - rewrite Hw, Hk. apply upsert_has_entry_id.
Qed.

(** A run over entries whose ids are all in the working table inserts
    nothing. *)
Lemma turns_present_ids es st st' r :
  some_turns es st st' r ->
  (forall e, In e es -> exists k, ent_id e = Some k /\ has_entry_id k (work (db_conn st))) ->
  map id (rows (work (db_conn st'))) = map id (rows (work (db_conn st))).
Proof.
  induction 1 as [st|e es st st1 x Ht|e es st st1 info st2 r Ht Hts IH]; intros Hall.
  - reflexivity.
  - inversion Ht; subst; reflexivity.
  - destruct (turn_ok_work _ _ _ _ Ht) as (dy & Hw).
    destruct (Hall e (or_introl eq_refl)) as (k & Hk & Hhas).
    rewrite IH.
    + rewrite Hw, Hk. now apply upsert_present_ids.
    + intros e' He'. destruct (Hall e' (or_intror He')) as (k' & Hk' & Hhas').
      exists k'. split; [exact Hk'|]. rewrite Hw. now apply upsert_keeps_entry_id.
Qed.

(** ** The memo dictionary *)

Lemma memo_ok_start (d : db) : memo_ok jira (sync_start d).
Proof.
  split; [apply NoDup_nil_2|]. split.
  - intros k [].
  - intros k info H. simpl in H. now rewrite lookup_empty in H.
Qed.

Lemma memo_fresh st k :
  memo_ok jira st -> issue_map st !! k = None -> NoDup (requests st ++ [k]).
Proof.
  intros (Hnd & Hin & _) Hnone. apply NoDup_app. split; [exact Hnd|].
  split; [|apply NoDup_singleton].
  intros x Hx Hx'. apply list_elem_of_singleton in Hx'. subst x.
  apply list_elem_of_In, Hin in Hx. rewrite Hnone in Hx. now destruct Hx.
Qed.

Lemma turn_memo e st st' r :
  a_turn e st st' r -> memo_ok jira st ->
  NoDup (requests st')
  /\ forall info, r = Ok info ->
       memo_ok jira st' /\ issue_map st ⊆ issue_map st'
       /\ issue_map st' !! issue e = Some info.
Proof.
  intros Ht Hok.
  destruct Ht as [Hov|Hov Hd|n info Hov Hd Hm Hfit|n info Hov Hd Hm Hfit
                  |n Hov Hd Hm Hj|n j Hov Hd Hm Hj Hfit|n j Hov Hd Hm Hj Hfit]; simpl.
  - split; [apply Hok|]. discriminate.
  - split; [apply Hok|]. discriminate.
  - split; [apply Hok|]. intros i [= <-]. split; [exact Hok|]. split; [reflexivity|exact Hm].
  - split; [apply Hok|]. discriminate.
  - split; [now apply memo_fresh|]. discriminate.
  - split; [now apply memo_fresh|]. intros i [= <-].
    split; [|split; [now apply insert_subseteq|apply lookup_insert_eq]].
    destruct Hok as (Hnd & Hin & Hans).
    split; [apply memo_fresh; [repeat split; assumption|exact Hm]|]. split; simpl.
    + intros k Hk. destruct (decide (issue e = k)) as [->|Hne].
      * rewrite lookup_insert_eq. eauto.
      * rewrite lookup_insert_ne by exact Hne. apply Hin.
        apply in_app_or in Hk. destruct Hk as [Hk|[Hk|[]]]; [exact Hk|contradiction].
    + intros k i Hk. destruct (decide (issue e = k)) as [<-|Hne].
      * rewrite lookup_insert_eq in Hk. injection Hk as <-.
        exists (requests st), [], j. auto.
      * rewrite lookup_insert_ne in Hk by exact Hne.
        destruct (Hans k i Hk) as (pre & post & j' & -> & Hj' & ->).
        exists pre, (post ++ [issue e])%list, j'.
        rewrite <- app_assoc. auto.
  - split; [now apply memo_fresh|]. discriminate.
Qed.

Lemma turns_memo es st st' r :
  some_turns es st st' r -> memo_ok jira st ->
  NoDup (requests st')
  /\ forall infos, r = Ok infos ->
       memo_ok jira st' /\ issue_map st ⊆ issue_map st'
       /\ Forall2 (fun e info => issue_map st' !! issue e = Some info) es infos.
Proof.
  induction 1 as [st|e es st st1 x Ht|e es st st1 info st2 r Ht Hts IH]; intros Hok.
  - split; [apply Hok|]. intros infos [= <-]. split; [exact Hok|]. split; [reflexivity|constructor].
  - split; [exact (proj1 (turn_memo _ _ _ _ Ht Hok))|]. discriminate.
  - destruct (turn_memo _ _ _ _ Ht Hok) as (_ & H1).
    destruct (H1 info eq_refl) as (Hok1 & Hsub1 & Hlk).
    destruct (IH Hok1) as (Hnd & H2). split; [exact Hnd|].
    intros infos Hr. destruct r as [is'|x]; [|discriminate]. injection Hr as <-.
    destruct (H2 is' eq_refl) as (Hok2 & Hsub2 & Hall).
    split; [exact Hok2|]. split; [now transitivity (issue_map st1)|].
    constructor; [|exact Hall].
    exact (lookup_weaken _ _ _ _ Hlk Hsub2).
Qed.

(** ** The whole of sync *)

Lemma sync_unfold (d : db) (today horizon : Z) :
  the_sync d today horizon
  = match Date.sub_days today horizon with
    | None => (sync_start d, Raise OverflowError)
    | Some start =>
        match clockwork (Date.strftime start) (Date.strftime today) with
        | None => (sync_start d, Raise HTTPError)
        | Some es =>
            match all_entries es (sync_start d) with
            | (st, Ok infos) =>
                ({| issue_map := issue_map st; requests := requests st;
                    db_conn := commit (db_conn st) |}, Ok infos)
            | (st, Raise x) => (st, Raise x)
            end
        end
    end.
Proof.
  unfold sync, sync_run, get_clockwork_records, bind.
  destruct (Date.sub_days today horizon) as [start|]; [|reflexivity].
  destruct (clockwork _ _) as [es|]; [|reflexivity].
  unfold ret. destruct (all_entries es (sync_start d)) as [st [infos|x]]; reflexivity.
Qed.

(** What one invocation leaves on disk: the table it found, or that table
    with the whole batch written. *)
Lemma sync_persisted_cases (d : db) (today horizon : Z) :
  the_sync_persisted d today horizon = d
  \/ exists start es st infos,
       Date.sub_days today horizon = Some start
       /\ clockwork (Date.strftime start) (Date.strftime today) = Some es
       /\ some_turns es (sync_start d) st (Ok infos)
       /\ the_sync_persisted d today horizon = work (db_conn st).
Proof.
  unfold sync_persisted. rewrite sync_unfold.
  destruct (Date.sub_days today horizon) as [start|]; [|now left].
  destruct (clockwork _ _) as [es|] eqn:Hc; [|now left].
  pose proof (sync_entries_turns es (sync_start d)) as Ht.
  destruct (all_entries es (sync_start d)) as [st [infos|x]]; simpl in *.
  - right. exists start, es, st, infos. auto.
  - left. exact (proj1 (turns_no_commit _ _ _ _ Ht)).
Qed.

Lemma sync_persisted_keeps (P : db -> Prop) (good : entry -> Prop) :
  (forall e info dy w, good e -> P w ->
     P (upsert (ent_id e) info (entry_minutes e) dy w)) ->
  (forall s t es, clockwork s t = Some es -> Forall good es) ->
  forall d today horizon, P d -> P (the_sync_persisted d today horizon).
Proof.
  intros Hstep Hgood d today horizon HP.
  destruct (sync_persisted_cases d today horizon)
    as [->|(start & es & st & infos & _ & Hc & Ht & ->)]; [exact HP|].
  exact (turns_work P good Hstep _ _ _ _ Ht (Hgood _ _ _ Hc) HP).
Qed.

Lemma sync_times_keeps (P : db -> Prop) (good : entry -> Prop) :
  (forall e info dy w, good e -> P w ->
     P (upsert (ent_id e) info (entry_minutes e) dy w)) ->
  (forall s t es, clockwork s t = Some es -> Forall good es) ->
  forall n d today horizon, P d -> P (the_sync_times n d today horizon).
Proof.
  intros Hstep Hgood n d today horizon HP.
  induction n as [|n IH]; simpl; [exact HP|].
  now apply (sync_persisted_keeps P good).
Qed.

(** Running [sync] again over the same external data, every entry of which
    has an id, inserts nothing: the rows are those of the first run, by
    rowid. *)
Lemma resync_inserts_nothing (d : db) (today horizon : Z) :
  (forall s t es, clockwork s t = Some es -> Forall (fun e => ent_id e <> None) es) ->
  let d1 := the_sync_persisted d today horizon in
  map id (rows (the_sync_persisted d1 today horizon)) = map id (rows d1).
Proof.
  intros Hids d1.
  destruct (sync_persisted_cases d today horizon)
    as [Hsame|(start & es & st & infos & Hs & Hc & Ht & Hd1)].
  - unfold d1 at 1. now rewrite Hsame.
  - destruct (sync_persisted_cases d1 today horizon)
      as [->|(start' & es' & st' & infos' & Hs' & Hc' & Ht' & ->)]; [reflexivity|].
    assert (start' = start) by congruence. subst start'.
    assert (es' = es) by congruence. subst es'.
    rewrite (turns_present_ids _ _ _ _ Ht'); [reflexivity|].
    intros e He. simpl.
    pose proof (proj1 (Forall_forall _ _) (Hids _ _ _ Hc) e
                  (proj2 (list_elem_of_In _ _) He)) as Hne.
    destruct (ent_id e) as [k|] eqn:Hk; [|contradiction].
    exists k. split; [reflexivity|].
    unfold d1. rewrite Hd1. exact (turns_covers _ _ _ _ Ht e k He Hk).
Qed.

End SyncFacts.

Lemma NoDup_split_unique {A} (l pre post pre' post' : list A) (k : A) :
  NoDup l -> l = (pre ++ k :: post)%list -> l = (pre' ++ k :: post')%list -> pre = pre'.
Proof.
  intros Hnd -> Heq. revert pre' Heq Hnd.
  induction pre as [|a pre IH]; intros [|a' pre'] Heq Hnd; simpl in *.
  - reflexivity.
  - injection Heq as <- ->. apply NoDup_cons in Hnd as [Hnot _].
    exfalso. apply Hnot, list_elem_of_In, in_or_app. right. now left.
  - injection Heq as -> <-. apply NoDup_cons in Hnd as [Hnot _].
    exfalso. apply Hnot, list_elem_of_In, in_or_app. right. now left.
  - injection Heq as <- Heq. apply NoDup_cons in Hnd as [_ Hnd].
    f_equal. now apply IH.
Qed.

Section SyncClaims.

Variable clockwork : string -> string -> option (list entry).
Variable jira : list Z -> Z -> option issue_json.
Variable strptime : string -> option Z.
Variable float_str : Q -> string.

Local Abbreviation this_sync := (sync clockwork jira strptime).
Local Abbreviation this_sync_persisted := (sync_persisted clockwork jira strptime).
Local Abbreviation this_sync_times := (sync_times clockwork jira strptime).

Lemma sync_keeps_entry_ids_unique_aux (d : db) (today horizon : Z) (n : nat) :
  unique_entry_ids d ->
  unique_entry_ids (this_sync_times n d today horizon)
  /\ unique_entry_ids (this_sync_persisted d today horizon).
Proof.
  intros Hu. split.
  - apply (sync_times_keeps clockwork jira strptime unique_entry_ids (fun _ => True));
      [|intros s t es _; now apply Forall_forall|exact Hu].
    intros e info dy w _. apply upsert_unique_entry_ids.
  - apply (sync_persisted_keeps clockwork jira strptime unique_entry_ids (fun _ => True));
      [|intros s t es _; now apply Forall_forall|exact Hu].
    intros e info dy w _. apply upsert_unique_entry_ids.
Qed.

(** C1: the upsert sets ticket, description, minutes, project and day of
    the rows whose entry id is the entry's, leaving their rowid and entry id
    and every other row as they were, and inserts a row only when no row has
    that entry id; so a table in which no entry id occurs twice still has
    none occurring twice after any number of runs of [sync] over the same
    external data; and once [sync] has run, running it again on entries that
    all have an id inserts no row. *)
Theorem sync_keeps_entry_ids_unique (d : db) (today horizon : Z) (n : nat) :
  NoDup (omap entry_id (rows d)) ->
  NoDup (omap entry_id (rows (this_sync_times n d today horizon)))
  /\ (forall eid info mins dy w,
        let written (rowid : Z) (eid' : option Z) :=
          {| id := rowid; entry_id := eid'; day := dy;
             ticket := Some (IssueInfo.key info);
             description := IssueInfo.summary info;
             minutes := mins;
             project := IssueInfo.project info |} in
        ((forall r k, In r (rows w) -> eid = Some k -> entry_id r <> Some k)
         /\ upsert eid info mins dy w
            = {| rows := rows w ++ [written (next_rowid w) eid];
                 seq := next_rowid w |})
        \/ ((exists r k, In r (rows w) /\ eid = Some k /\ entry_id r = Some k)
            /\ upsert eid info mins dy w
               = {| rows := map (fun r => if decide (entry_id r = eid)
                                          then written (id r) (entry_id r) else r)
                                (rows w);
                    seq := seq w |}))
  /\ ((forall s t es, clockwork s t = Some es ->
         Forall (fun e => ent_id e <> None) es) ->
      map id (rows (this_sync_times (S (S n)) d today horizon))
      = map id (rows (this_sync_times (S n) d today horizon))).
Proof.
  intros Hu. apply unique_entry_ids_NoDup in Hu.
  split; [|split].
  - apply unique_entry_ids_NoDup.
    exact (proj1 (sync_keeps_entry_ids_unique_aux d today horizon n Hu)).
  - intros eid info mins dy w written.
    destruct (upsert_cases eid info mins dy w) as [[Hno Heq]|[(r & Hr & Hm) Heq]].
    + left. split; [|exact Heq].
      intros r k Hr -> Hk. apply entry_id_is_Some in Hk.
      rewrite (Hno r Hr) in Hk. discriminate.
    + right. destruct eid as [k|]; [|destruct (entry_id r); discriminate].
      split; [exists r, k; split; [exact Hr|]; split; [reflexivity|];
              now apply entry_id_is_Some|].
      rewrite Heq. f_equal. apply map_ext. intros x.
      destruct (decide (entry_id x = Some k)) as [Hx|Hx].
      * rewrite (proj2 (entry_id_is_Some k x) Hx). reflexivity.
      * destruct (entry_id_is (Some k) x) eqn:Hmx; [|reflexivity].
        apply entry_id_is_Some in Hmx. contradiction.
  - intros Hids. simpl.
    exact (resync_inserts_nothing clockwork jira strptime
             (this_sync_times n d today horizon) today horizon Hids).
Qed.

(** C3: a run of [sync] that ends normally has committed once, after the
    loop, and the persisted table is the one it found with the rows of the
    whole batch written, every request to the tracker having been answered;
    a run that raises has not committed and leaves the persisted table as it
    found it. *)
Theorem sync_commits_once_or_not_at_all (d : db) (today horizon : Z) :
  let st := fst (this_sync d today horizon) in
  match snd (this_sync d today horizon) with
  | Ok infos =>
      commits (db_conn st) = 1%nat
      /\ exists start es,
           Date.sub_days today horizon = Some start
           /\ clockwork (Date.strftime start) (Date.strftime today) = Some es
           /\ List.length infos = List.length es
           /\ disk (db_conn st) = write_entries strptime es infos d
           /\ forall pre k post,
                requests st = (pre ++ k :: post)%list -> jira pre k <> None
  | Raise _ => commits (db_conn st) = 0%nat /\ disk (db_conn st) = d
  end.
Proof.
  rewrite sync_unfold.
  destruct (Date.sub_days today horizon) as [start|]; [|simpl; auto].
  destruct (clockwork _ _) as [es|] eqn:Hc; [|simpl; auto].
  pose proof (sync_entries_turns jira strptime es (sync_start d)) as Ht.
  destruct (sync_entries jira strptime es (sync_start d)) as [st [infos|x]];
    simpl in *.
  - destruct (turns_no_commit _ _ _ _ _ _ Ht) as [_ Hcommits].
    split; [now rewrite Hcommits|].
    exists start, es. split; [reflexivity|]. split; [exact Hc|].
    split; [exact (turns_length _ _ _ _ _ _ Ht)|].
    split; [exact (turns_writes _ _ _ _ _ _ Ht)|].
    destruct (turns_memo _ _ _ _ _ _ Ht (memo_ok_start jira d)) as (_ & Hok).
    destruct (Hok infos eq_refl) as ((Hnd & Hin & Hans) & _ & _).
    intros pre k post Hreq Hnone.
    assert (Hk : In k (requests st)) by (rewrite Hreq; apply in_or_app; right; now left).
    destruct (Hin k Hk) as [info Hinfo].
    destruct (Hans k info Hinfo) as (pre' & post' & j & Hreq' & Hj & _).
    rewrite (NoDup_split_unique _ _ _ _ _ _ Hnd Hreq Hreq') in Hnone. congruence.
  - exact (conj (proj2 (turns_no_commit _ _ _ _ _ _ Ht))
                (proj1 (turns_no_commit _ _ _ _ _ _ Ht))).
Qed.

(** C4: the row [create] inserts has no entry id, and a row without entry
    id that is in the table before a run of [sync] is in the table, as it
    was, after it. *)
Theorem manual_rows_untouched_by_sync (d : db) (today horizon : Z) (r : row) :
  In r (rows d) ->
  entry_id r = None ->
  In r (rows (this_sync_persisted d today horizon))
  /\ forall d0 t proj mins desc tk dy,
       exists r0,
         rows (persisted (create float_str d0 t proj mins desc tk dy))
         = (rows d0 ++ [r0])%list
         /\ entry_id r0 = None.
Proof.
  intros Hr Hnull. split.
  - apply (sync_persisted_keeps clockwork jira strptime
             (fun w => In r (rows w)) (fun _ => True));
      [|intros s t es _; now apply Forall_forall|exact Hr].
    intros e info dy w _. now apply upsert_keeps_manual_row.
  - intros. eexists. split; [apply create_rows|reflexivity].
Qed.

(** C8: in one run of [sync] no issue id is requested from the tracker
    twice, and in a run that ends normally every entry is written with the
    info the dictionary holds for its issue id, which is the tracker's answer
    to the one request made for that id, its project being the first three
    characters of its key; two entries of one issue id get the same info. *)
Theorem issue_metadata_memoized (d : db) (today horizon : Z) :
  let st := fst (this_sync d today horizon) in
  NoDup (requests st)
  /\ forall infos, snd (this_sync d today horizon) = Ok infos ->
       exists start es,
         Date.sub_days today horizon = Some start
         /\ clockwork (Date.strftime start) (Date.strftime today) = Some es
         /\ disk (db_conn st) = write_entries strptime es infos d
         /\ Forall2 (fun e info => issue_map st !! issue e = Some info) es infos
         /\ (forall a b e1 e2 i1 i2,
               es !! a = Some e1 -> es !! b = Some e2 ->
               infos !! a = Some i1 -> infos !! b = Some i2 ->
               issue e1 = issue e2 -> i1 = i2)
         /\ (forall k info, issue_map st !! k = Some info ->
               exists pre post j,
                 requests st = (pre ++ k :: post)%list
                 /\ jira pre k = Some j
                 /\ IssueInfo.key info = json_key j
                 /\ IssueInfo.summary info = json_summary j
                 /\ IssueInfo.project info = substring 0 3 (json_key j)).
Proof.
  rewrite sync_unfold.
  destruct (Date.sub_days today horizon) as [start|];
    [|simpl; split; [apply NoDup_nil_2|discriminate]].
  destruct (clockwork _ _) as [es|] eqn:Hc;
    [|simpl; split; [apply NoDup_nil_2|discriminate]].
  pose proof (sync_entries_turns jira strptime es (sync_start d)) as Ht.
  destruct (turns_memo _ _ _ _ _ _ Ht (memo_ok_start jira d)) as (Hnd & Hok).
  destruct (sync_entries jira strptime es (sync_start d)) as [st [infos|x]];
    simpl in *; (split; [exact Hnd|]); [|discriminate].
  intros is' [= <-].
  destruct (Hok infos eq_refl) as ((_ & _ & Hans) & _ & Hall).
  exists start, es. split; [reflexivity|]. split; [exact Hc|].
  split; [exact (turns_writes _ _ _ _ _ _ Ht)|]. split; [exact Hall|]. split.
  - intros a b e1 e2 i1 i2 Ha Hb Hia Hib Heq.
    pose proof (Forall2_lookup_lr _ _ _ _ _ _ Hall Ha Hia) as H1.
    pose proof (Forall2_lookup_lr _ _ _ _ _ _ Hall Hb Hib) as H2.
    simpl in H1, H2. congruence.
  - intros k info Hk. destruct (Hans k info Hk) as (pre & post & j & H1 & H2 & ->).
    exists pre, post, j. auto.
Qed.

Lemma entry_minutes_sign (e : entry) :
  (0 <= entry_minutes e)%Q <-> 0 <= timeSpentSeconds e.
Proof. unfold entry_minutes, Qle. simpl. lia. Qed.

(** C9, as the code has it: [create] stores the minutes it is given and
    [sync] stores [timeSpentSeconds / 60], neither looking at the sign; the
    stored minutes stay non-negative when the table's are, the minutes given
    to [create] are, and the seconds of every fetched entry are. *)
Theorem minutes_stored_as_given (d : db) (today horizon : Z) (proj : string)
    (mins : Q) (desc : string) (tk : option string) (dy : string) :
  minutes_nonneg d ->
  (exists r,
     rows (persisted (create float_str d today proj mins desc tk dy))
     = (rows d ++ [r])%list
     /\ minutes r = mins)
  /\ ((0 <= mins)%Q ->
      minutes_nonneg (persisted (create float_str d today proj mins desc tk dy)))
  /\ (forall e info dy' w r,
        In r (rows (upsert (ent_id e) info (entry_minutes e) dy' w)) ->
        In r (rows w) \/ minutes r = (inject_Z (timeSpentSeconds e) / 60)%Q)
  /\ ((forall s t es, clockwork s t = Some es ->
         Forall (fun e => 0 <= timeSpentSeconds e) es) ->
      minutes_nonneg (this_sync_persisted d today horizon)).
Proof.
  intros Hd. split; [|split; [|split]].
  - eexists. split; [apply create_rows|reflexivity].
  - intros Hm r Hr. rewrite create_rows in Hr.
    apply in_app_or in Hr. destruct Hr as [Hr|[<-|[]]]; [now apply Hd|exact Hm].
  - intros e info dy' w r Hr. exact (upsert_minutes _ _ _ _ _ _ Hr).
  - intros Hgood.
    apply (sync_persisted_keeps clockwork jira strptime minutes_nonneg
             (fun e => 0 <= timeSpentSeconds e)); [|exact Hgood|exact Hd].
    intros e info dy' w He. apply upsert_minutes_nonneg. now apply entry_minutes_sign.
Qed.

(** The rowid stays a key under every command. *)
Lemma sync_id_is_key (d : db) (today horizon : Z) :
  id_is_key d -> id_is_key (this_sync_persisted d today horizon).
Proof.
  apply (sync_persisted_keeps clockwork jira strptime id_is_key (fun _ => True));
    [|intros s t es _; now apply Forall_forall].
  intros e info dy w _. apply upsert_id_is_key.
Qed.

Lemma create_id_is_key (d : db) (today : Z) proj mins desc tk dy :
  id_is_key d -> id_is_key (persisted (create float_str d today proj mins desc tk dy)).
Proof. apply sql_insert_key. Qed.

Lemma remove_id_is_key (d : db) (today : Z) :
  id_is_key d -> id_is_key (persisted (remove float_str d today)).
Proof.
  unfold id_is_key. simpl. generalize (max_id (rows d)). intros m Hk.
  apply NoDup_ListNoDup in Hk. apply NoDup_ListNoDup.
  induction (rows d) as [|r t IH]; simpl; [constructor|].
  apply List.NoDup_cons_iff in Hk as [Hn Hk].
  destruct (negb _); simpl; [|now apply IH].
  constructor; [|now apply IH].
  intros Hin. apply Hn. apply in_map_iff in Hin as (x & Hx & Hin).
  apply List.filter_In in Hin as [Hin _]. apply in_map_iff. eauto.
Qed.

End SyncClaims.

(** ** Tables the commands produce *)

Lemma length_filter_filter {A} (p q : A -> bool) (l : list A) :
  (List.length (List.filter p (List.filter q l)) <= List.length (List.filter p l))%nat.
Proof.
  induction l as [|x l IH]; simpl; [lia|].
  destruct (q x); simpl; destruct (p x); simpl; lia.
Qed.

(** Every table the commands produce has at most one row per entry id and
    distinct rowids, the two assumptions made on tables above. *)
Lemma reachable_invariants (d : db) :
  reachable d -> unique_entry_ids d /\ id_is_key d.
Proof.
  induction 1 as [|float_str d today proj mins desc tk dy _ [IHu IHk]
                  |float_str d today _ [IHu IHk]
                  |clockwork jira strptime d today horizon _ [IHu IHk]].
  - split; [intros k; unfold rows_with_entry_id; simpl; lia|apply NoDup_nil_2].
  - split; [|now apply create_id_is_key].
    intros k. rewrite create_rows. unfold rows_with_entry_id.
    rewrite List.filter_app, List.length_app. simpl.
    specialize (IHu k). unfold rows_with_entry_id in IHu. lia.
  - split; [|now apply remove_id_is_key].
    intros k. simpl. unfold rows_with_entry_id.
    etransitivity; [apply length_filter_filter|apply IHu].
  - split; [|now apply sync_id_is_key].
    exact (proj2 (sync_keeps_entry_ids_unique_aux clockwork jira strptime d today horizon 0 IHu)).
Qed.

(** ** The commands on the example tables *)

Example report_example :
  report decimal_str example_db example_today 1
  = Ok [ "ABC: 1.5 hours"; "XYZ: 2.0 hours"; "";
         "2024-01-01: Total 1.5 hours"; "2024-01-02: Total 2.0 hours" ].
Proof. vm_compute. reflexivity. Qed.

Example latest_example :
  latest decimal_str example_db example_today 0
  = Ok [ "2024-01-02: XYZ (XYZ-7) release [2.0 hours]"; "";
         "XYZ: 2.0 hours"; ""; "2024-01-02: Total 2.0 hours" ].
Proof. vm_compute. reflexivity. Qed.

Example synced_db_rows :
  map (fun r => (id r, entry_id r, day r, ticket r, description r, project r))
      (rows synced_db)
  = [ (1, None, "2024-01-01", None, "planning", "ABC");
      (2, None, "2024-01-01", None, "review", "ABC");
      (3, None, "2024-01-02", Some "XYZ-7", "release", "XYZ");
      (4, Some 42, "2024-01-02", Some "ABC-12", "Fix login", "ABC");
      (5, Some 43, "2024-01-02", Some "ABC-12", "Fix login", "ABC") ].
Proof. vm_compute. reflexivity. Qed.

Example resync_changes_nothing :
  sync_times example_clockwork example_jira Date.strptime_iso 2
             example_db example_today 1
  = synced_db.
Proof. vm_compute. reflexivity. Qed.

Example failing_sync :
  snd (sync failing_clockwork example_jira Date.strptime_iso example_db example_today 1)
  = Raise HTTPError
  /\ requests (fst (sync failing_clockwork example_jira Date.strptime_iso
                         example_db example_today 1)) = [1001; 2002]
  /\ sync_persisted failing_clockwork example_jira Date.strptime_iso
                    example_db example_today 1 = example_db.
Proof. vm_compute. repeat split; reflexivity. Qed.

Example remove_takes_the_last_inserted :
  let d := persisted (create decimal_str example_db example_today
                             "abc" 15 "late entry" None "2023-12-31") in
  map id (rows d) = [1; 2; 3; 4]
  /\ map id (rows (persisted (remove decimal_str d example_today))) = [1; 2; 3].
Proof. vm_compute. split; reflexivity. Qed.

Example overflowing_syncs :
  sync endless_clockwork example_jira Date.strptime_iso example_db example_today 1
  = (sync_start example_db, Raise OverflowError)
  /\ snd (sync wide_id_clockwork example_jira Date.strptime_iso example_db example_today 1)
     = Raise OverflowError
  /\ requests (fst (sync wide_id_clockwork example_jira Date.strptime_iso
                         example_db example_today 1)) = [1001]
  /\ sync_persisted wide_id_clockwork example_jira Date.strptime_iso
                    example_db example_today 1 = example_db.
Proof. vm_compute. repeat split; reflexivity. Qed.

(** ** The theorems at the examples *)

Lemma sync_keeps_entry_ids_unique_witness :
  omap entry_id (rows synced_db) = [42; 43]
  /\ NoDup (omap entry_id (rows synced_db))
  /\ NoDup (omap entry_id
              (rows (sync_times example_clockwork example_jira Date.strptime_iso 2
                                synced_db example_today 1))).
Proof.
  assert (Hids : omap entry_id (rows synced_db) = [42; 43])
    by (vm_compute; reflexivity).
  assert (H : NoDup (omap entry_id (rows synced_db))).
  { rewrite Hids. apply NoDup_ListNoDup.
    repeat constructor; simpl; intuition discriminate. }
  split; [exact Hids|]. split; [exact H|].
  exact (proj1 (sync_keeps_entry_ids_unique example_clockwork example_jira
                  Date.strptime_iso synced_db example_today 1 2 H)).
Defined.

(** C2 as worded does not hold: on the example the per-day lines carry
    1.5 and 2.0, the sums 90 and 120 divided by 60, not the raw sums. *)
Lemma report_day_view_not_raw_minutes :
  select_day_minutes "2024-01-01" (rows example_db)
  = [ ("2024-01-01", 90%Q); ("2024-01-02", 120%Q) ]
  /\ report_days decimal_str "2024-01-01" example_db
     = [ "2024-01-01: Total 1.5 hours"; "2024-01-02: Total 2.0 hours" ]
  /\ report_days decimal_str "2024-01-01" example_db
     <> map (day_line_raw decimal_str)
            (select_day_minutes "2024-01-01" (rows example_db))
  /\ ~ In "2024-01-01: Total 90 hours"
          (report_days decimal_str "2024-01-01" example_db).
Proof.
  split; [vm_compute; reflexivity|]. split; [vm_compute; reflexivity|].
  split.
  - vm_compute. discriminate.
  - vm_compute. intros [H|[H|[]]]; discriminate.
Qed.

Lemma report_day_view_witness :
  latest decimal_str example_db example_today 1
  = Ok [ "2024-01-01: ABC (no ticket) planning [1.0 hours]";
         "2024-01-01: ABC (no ticket) review [0.5 hours]";
         "2024-01-02: XYZ (XYZ-7) release [2.0 hours]"; "";
         "ABC: 1.5 hours"; "XYZ: 2.0 hours"; "";
         "2024-01-01: Total 1.5 hours"; "2024-01-02: Total 2.0 hours" ]
  /\ exists days,
       NoDup days
       /\ forall dy, In dy days
            <-> exists r, In r (rows example_db)
                          /\ String.leb "2024-01-01" (day r) = true /\ day r = dy.
Proof.
  assert (H : latest decimal_str example_db example_today 1
              = Ok [ "2024-01-01: ABC (no ticket) planning [1.0 hours]";
                     "2024-01-01: ABC (no ticket) review [0.5 hours]";
                     "2024-01-02: XYZ (XYZ-7) release [2.0 hours]"; "";
                     "ABC: 1.5 hours"; "XYZ: 2.0 hours"; "";
                     "2024-01-01: Total 1.5 hours"; "2024-01-02: Total 2.0 hours" ]).
  { vm_compute. reflexivity. }
  split; [exact H|].
  destruct (report_day_view decimal_str example_db example_today 1 _ H)
    as (days & projects & _ & _ & Hnd & Hdays).
  exists days. split; [exact Hnd|exact Hdays].
Defined.

Lemma report_project_view_witness :
  report decimal_str example_db example_today 1
  = Ok [ "ABC: 1.5 hours"; "XYZ: 2.0 hours"; "";
         "2024-01-01: Total 1.5 hours"; "2024-01-02: Total 2.0 hours" ]
  /\ exists projects,
       NoDup projects
       /\ forall p, In p projects
            <-> exists r, In r (rows example_db)
                          /\ String.leb "2024-01-01" (day r) = true /\ project r = p.
Proof.
  split; [exact report_example|].
  destruct (report_project_view decimal_str example_db example_today 1 _ report_example)
    as (projects & rest & _ & Hnd & Hprojects).
  exists projects. split; [exact Hnd|exact Hprojects].
Defined.

Lemma sync_commits_once_or_not_at_all_witness :
  commits (db_conn (fst (sync example_clockwork example_jira Date.strptime_iso
                              example_db example_today 1))) = 1%nat
  /\ disk (db_conn (fst (sync failing_clockwork example_jira Date.strptime_iso
                              example_db example_today 1))) = example_db.
Proof.
  split.
  - exact (proj1 (sync_commits_once_or_not_at_all example_clockwork example_jira
                    Date.strptime_iso example_db example_today 1)).
  - exact (proj2 (sync_commits_once_or_not_at_all failing_clockwork example_jira
                    Date.strptime_iso example_db example_today 1)).
Defined.

Lemma manual_rows_untouched_by_sync_witness :
  let r := {| id := 2; entry_id := None; day := "2024-01-01"; ticket := None;
              description := "review"; minutes := 60; project := "ABC" |} in
  let d := {| rows := [r; {| id := 4; entry_id := Some 42; day := "2024-01-01";
                             ticket := Some "ABC-1"; description := "old summary";
                             minutes := 10; project := "ABC" |}];
              seq := 4 |} in
  In r (rows d) /\ entry_id r = None
  /\ In r (rows (sync_persisted example_clockwork example_jira Date.strptime_iso
                                d example_today 1)).
Proof.
  intros r d.
  assert (Hin : In r (rows d)) by (left; reflexivity).
  assert (Hnull : entry_id r = None) by reflexivity.
  split; [exact Hin|]. split; [exact Hnull|].
  exact (proj1 (manual_rows_untouched_by_sync example_clockwork example_jira
                  Date.strptime_iso decimal_str d example_today 1 r Hin Hnull)).
Defined.

Lemma remove_deletes_max_id_witness :
  let d := {| rows := [ {| id := 7; entry_id := None; day := "2024-03-01";
                           ticket := None; description := "later day";
                           minutes := 45; project := "ABC" |};
                        {| id := 9; entry_id := None; day := "2024-01-15";
                           ticket := None; description := "earlier day";
                           minutes := 20; project := "XYZ" |} ];
              seq := 9 |} in
  rows d <> [] /\ NoDup (map id (rows d))
  /\ map id (rows (persisted (remove decimal_str d example_today))) = [7]
  /\ exists l1 r l2,
       rows d = (l1 ++ r :: l2)%list
       /\ rows (persisted (remove decimal_str d example_today)) = (l1 ++ l2)%list
       /\ forall r', In r' (rows d) -> id r' <= id r.
Proof.
  intros d.
  assert (Hne : rows d <> []) by discriminate.
  assert (Hnd : NoDup (map id (rows d))).
  { apply NoDup_ListNoDup. simpl. repeat constructor; simpl; intuition lia. }
  split; [exact Hne|]. split; [exact Hnd|]. split; [reflexivity|].
  exact (remove_deletes_max_id decimal_str d example_today Hne Hnd).
Defined.

Lemma window_lower_bound_inclusive_witness :
  let r := {| id := 1; entry_id := None; day := "2024-01-01"; ticket := None;
              description := "planning"; minutes := 60; project := "ABC" |} in
  Z.abs 1 <= 999999999
  /\ 1 <= example_today - 1 <= 3652059
  /\ In r (rows example_db)
  /\ day r = Date.strftime (example_today - 1)
  /\ latest decimal_str example_db example_today 1
     = Ok [ "2024-01-01: ABC (no ticket) planning [1.0 hours]";
            "2024-01-01: ABC (no ticket) review [0.5 hours]";
            "2024-01-02: XYZ (XYZ-7) release [2.0 hours]"; "";
            "ABC: 1.5 hours"; "XYZ: 2.0 hours"; "";
            "2024-01-01: Total 1.5 hours"; "2024-01-02: Total 2.0 hours" ]
  /\ In (latest_line decimal_str r) (latest_entries decimal_str "2024-01-01" example_db)
  /\ In r (rows_of project "2024-01-01" "ABC" (rows example_db))
  /\ In r (rows_of day "2024-01-01" "2024-01-01" (rows example_db)).
Proof.
  intros r.
  assert (Hh : Z.abs 1 <= 999999999) by (vm_compute; discriminate).
  assert (Hrange : 1 <= example_today - 1 <= 3652059)
    by (split; vm_compute; discriminate).
  assert (Hin : In r (rows example_db)) by (left; reflexivity).
  assert (Hday : day r = Date.strftime (example_today - 1)) by reflexivity.
  split; [exact Hh|]. split; [exact Hrange|]. split; [exact Hin|]. split; [exact Hday|].
  destruct (window_lower_bound_inclusive decimal_str example_db example_today 1
              r Hh Hrange Hin Hday)
    as (Hout & _ & Hlatest & Hproject & _ & Hdays & _).
  split; [rewrite Hout; vm_compute; reflexivity|].
  split; [exact Hlatest|]. split; [exact Hproject|exact Hdays].
Defined.

Lemma issue_metadata_memoized_witness :
  NoDup (requests (fst (sync example_clockwork example_jira Date.strptime_iso
                             example_db example_today 1)))
  /\ requests (fst (sync example_clockwork example_jira Date.strptime_iso
                         example_db example_today 1)) = [1001]
  /\ snd (sync example_clockwork example_jira Date.strptime_iso
               example_db example_today 1)
     = Ok [ issue_info_of {| json_key := "ABC-12"; json_summary := "Fix login" |};
            issue_info_of {| json_key := "ABC-12"; json_summary := "Fix login" |} ].
Proof.
  split; [|split; vm_compute; reflexivity].
  exact (proj1 (issue_metadata_memoized example_clockwork example_jira
                  Date.strptime_iso example_db example_today 1)).
Defined.

(** C9 as worded does not hold: [create] stores a negative number of
    minutes it is given, and [sync] stores the negative minutes of an entry
    whose [timeSpentSeconds] is negative. *)
Lemma negative_minutes_are_stored :
  ~ minutes_nonneg
      (persisted (create decimal_str empty_db example_today
                         "abc" (-30) "correction" None "2024-01-02"))
  /\ ~ minutes_nonneg
        (sync_persisted negative_clockwork example_jira Date.strptime_iso
                        empty_db example_today 1).
Proof.
  split; intros H.
  - specialize (H {| id := 1; entry_id := None; day := "2024-01-02"; ticket := None;
                     description := "correction"; minutes := -30;
                     project := "ABC" |} (or_introl eq_refl)).
    vm_compute in H. apply H. reflexivity.
  - specialize (H {| id := 1; entry_id := Some 45; day := "2024-01-02";
                     ticket := Some "ABC-12"; description := "Fix login";
                     minutes := (inject_Z (-600) / 60)%Q; project := "ABC" |}
                  (or_introl eq_refl)).
    vm_compute in H. apply H. reflexivity.
Qed.

Lemma minutes_stored_as_given_witness :
  minutes_nonneg example_db
  /\ minutes_nonneg
       (persisted (create decimal_str example_db example_today
                          "abc" 15 "late entry" None "2023-12-31"))
  /\ minutes_nonneg
       (sync_persisted example_clockwork example_jira Date.strptime_iso
                       example_db example_today 1).
Proof.
  assert (Hd : minutes_nonneg example_db).
  { intros r [<-|[<-|[<-|[]]]]; discriminate. }
  assert (Hsecs : forall s t es, example_clockwork s t = Some es ->
                    Forall (fun e => 0 <= timeSpentSeconds e) es).
  { intros s t es [= <-]. repeat constructor; simpl; lia. }
  destruct (minutes_stored_as_given example_clockwork example_jira Date.strptime_iso
              decimal_str example_db example_today 1
              "abc" 15 "late entry" None "2023-12-31" Hd)
    as (_ & Hcreate & _ & Hsync).
  split; [exact Hd|]. split; [apply Hcreate; discriminate|exact (Hsync Hsecs)].
Defined.

Lemma remove_on_empty_store_witness :
  Date.valid example_today = true
  /\ rows empty_db = []
  /\ remove decimal_str empty_db example_today
     = {| persisted := empty_db; printed := Ok [""; ""] |}.
Proof.
  assert (Hv : Date.valid example_today = true) by reflexivity.
  split; [exact Hv|]. split; [reflexivity|].
  exact (remove_on_empty_store decimal_str empty_db example_today Hv eq_refl).
Defined.

(** * Further properties of the commands *)

(** ** create and remove together *)

Lemma max_id_snoc (t : list row) (x : row) :
  (forall r, In r t -> id r < id x) -> max_id (t ++ [x]) = Some (id x).
Proof.
  induction t as [|r t IH]; simpl; intros Hlt; [reflexivity|].
  rewrite IH by (intros y Hy; apply Hlt; now right).
  specialize (Hlt r (or_introl eq_refl)). f_equal. lia.
Qed.

Lemma next_rowid_above (d : db) (r : row) : In r (rows d) -> id r < next_rowid d.
Proof.
  intros Hr. unfold next_rowid.
  destruct (max_id (rows d)) as [m|] eqn:Hm.
  - pose proof (max_id_bound _ _ Hm r Hr). simpl. lia.
  - apply max_id_nil in Hm. rewrite Hm in Hr. destruct Hr.
Qed.

Section CreateRemove.

Variable float_str : Q -> string.

(** X1: [remove] right after [create] takes out the row just created: the
    rows are those of the table before the [create], whatever it held. *)
Theorem remove_undoes_create (d : db) (today : Z) (proj : string) (mins : Q)
    (desc : string) (tk : option string) (dy : string) :
  rows (persisted (remove float_str
         (persisted (create float_str d today proj mins desc tk dy)) today))
  = rows d.
Proof.
  set (new := {| id := next_rowid d; entry_id := None; day := dy; ticket := tk;
                 description := desc; minutes := mins; project := upper proj |}).
  change (List.filter (fun r => negb (is_max_id (max_id (rows d ++ [new])) r))
                      (rows d ++ [new]) = rows d).
  rewrite (max_id_snoc (rows d) new) by (intros r Hr; now apply next_rowid_above).
  rewrite List.filter_app. simpl. rewrite Z.eqb_refl. simpl.
  rewrite app_nil_r. apply filter_all.
  intros r Hr. apply negb_true_iff, Z.eqb_neq.
  pose proof (next_rowid_above d r Hr). lia.
Qed.

End CreateRemove.

(** ** More on sync *)

Lemma upsert_row_keys eid info mins dy (d : db) :
  map row_key (rows d) `prefix_of` map row_key (rows (upsert eid info mins dy d)).
Proof.
  destruct (upsert_cases eid info mins dy d) as [[_ ->]|[_ ->]]; cbn [rows].
  - rewrite map_app. apply prefix_app_r. reflexivity.
  - induction (rows d) as [|r t IH]; simpl; [reflexivity|].
    replace (row_key (if entry_id_is eid r then updated_row info mins dy r else r))
      with (row_key r) by (destruct (entry_id_is eid r); reflexivity).
    now apply prefix_cons.
Qed.

Lemma upsert_sets_fields info mins dy (d : db) (k : Z) (r : row) :
  In r (rows (upsert (Some k) info mins dy d)) ->
  entry_id r = Some k ->
  fields r = (Some (IssueInfo.key info), IssueInfo.summary info, mins,
              IssueInfo.project info, dy).
Proof.
  destruct (upsert_cases (Some k) info mins dy d) as [[Hno ->]|[_ ->]]; cbn [rows].
  - intros Hr Hk. apply in_app_or in Hr. destruct Hr as [Hr|[<-|[]]]; [|reflexivity].
    specialize (Hno r Hr). apply entry_id_is_Some in Hk. congruence.
  - intros Hr Hk. apply in_map_iff in Hr. destruct Hr as (x & <- & Hx).
    destruct (entry_id_is (Some k) x) eqn:Hm; [reflexivity|].
    apply entry_id_is_Some in Hk. congruence.
Qed.

Lemma upsert_other_fields eid info mins dy (d : db) (k : Z) (r : row) :
  eid <> Some k ->
  In r (rows (upsert eid info mins dy d)) ->
  entry_id r = Some k ->
  In r (rows d).
Proof.
  intros Hne.
  destruct (upsert_cases eid info mins dy d) as [[_ ->]|[_ ->]]; cbn [rows].
  - intros Hr Hk. apply in_app_or in Hr. destruct Hr as [Hr|[<-|[]]]; [exact Hr|].
    simpl in Hk. contradiction.
  - intros Hr Hk. apply in_map_iff in Hr. destruct Hr as (x & <- & Hx).
    destruct (entry_id_is eid x) eqn:Hm; [|exact Hx].
    exfalso. simpl in Hk. unfold entry_id_is in Hm. rewrite Hk in Hm.
    destruct eid as [a|]; [|discriminate]. apply Z.eqb_eq in Hm. congruence.
Qed.

Lemma row_key_entry_id_is eid (r r' : row) :
  row_key r = row_key r' -> entry_id_is eid r = entry_id_is eid r'.
Proof. unfold row_key, entry_id_is. intros [= _ ->]. reflexivity. Qed.

Lemma row_key_updated_row info mins dy (r r' : row) :
  row_key r = row_key r' -> updated_row info mins dy r = updated_row info mins dy r'.
Proof. unfold row_key, updated_row, set_fields. intros [= -> ->]. reflexivity. Qed.

Lemma row_key_updated_row_same info mins dy (r : row) :
  row_key (updated_row info mins dy r) = row_key r.
Proof. reflexivity. Qed.

Section SyncMore.

Variable clockwork : string -> string -> option (list entry).
Variable jira : list Z -> Z -> option issue_json.
Variable strptime : string -> option Z.

Local Abbreviation run_sync := (sync clockwork jira strptime).
Local Abbreviation run_sync_persisted := (sync_persisted clockwork jira strptime).
Local Abbreviation run_entries := (sync_entries jira strptime).
Local Abbreviation run_turns := (turns jira strptime).
Local Abbreviation run_turn := (turn jira strptime).

(** X2: [sync] only rewrites rows in place and appends rows: the rows the
    table had are still there, in the same positions, with the rowid and the
    entry id they had, whether the run ends normally or not. *)
Theorem sync_only_appends (d : db) (today horizon : Z) :
  map row_key (rows d) `prefix_of` map row_key (rows (run_sync_persisted d today horizon)).
Proof.
  apply (sync_persisted_keeps clockwork jira strptime
           (fun w => map row_key (rows d) `prefix_of` map row_key (rows w))
           (fun _ => True));
    [|intros s t es _; now apply Forall_forall|reflexivity].
  intros e info dy w _ Hw. etransitivity; [exact Hw|apply upsert_row_keys].
Qed.

Lemma turn_requests e st st' r (k : Z) :
  run_turn e st st' r -> In k (requests st') -> In k (requests st) \/ issue e = k.
Proof.
  intros Ht. destruct Ht; simpl; auto;
    intros Hk; apply in_app_or in Hk; destruct Hk as [Hk|[Hk|[]]]; auto.
Qed.

Lemma turns_requests es st st' r (k : Z) :
  run_turns es st st' r -> In k (requests st') ->
  In k (requests st) \/ exists e, In e es /\ issue e = k.
Proof.
  induction 1 as [st|e es st st1 x Ht|e es st st1 info st2 r Ht Hts IH]; intros Hk.
  - now left.
  - destruct (turn_requests _ _ _ _ _ Ht Hk) as [H|H]; [now left|].
    right. exists e. split; [now left|exact H].
  - destruct (IH Hk) as [H|(e' & He' & H)].
    + destruct (turn_requests _ _ _ _ _ Ht H) as [H'|H']; [now left|].
      right. exists e. split; [now left|exact H'].
    + right. exists e'. split; [now right|exact H].
Qed.

(** X3: in a run of [sync] that ends normally the tracker is asked exactly
    once for each issue id that occurs in the batch, and for nothing else. *)
Theorem sync_requests_each_issue_once (d : db) (today horizon : Z)
    (start : Z) (es : list entry) (infos : list IssueInfo.t) :
  Date.sub_days today horizon = Some start ->
  clockwork (Date.strftime start) (Date.strftime today) = Some es ->
  snd (run_sync d today horizon) = Ok infos ->
  requests (fst (run_sync d today horizon)) ≡ₚ remove_dups (map issue es).
Proof.
  intros Hs Hc. rewrite sync_unfold, Hs, Hc.
  pose proof (sync_entries_turns jira strptime es (sync_start d)) as Ht.
  destruct (turns_memo _ _ _ _ _ _ Ht (memo_ok_start jira d)) as (Hnd & Hok).
  destruct (run_entries es (sync_start d)) as [st [is'|x]]; simpl in *; [|discriminate].
  intros _. destruct (Hok is' eq_refl) as ((_ & _ & Hans) & _ & Hall).
  apply NoDup_Permutation; [exact Hnd|apply NoDup_remove_dups|].
  intros k. rewrite elem_of_remove_dups, !list_elem_of_In, in_map_iff. split.
  - intros Hk. destruct (turns_requests _ _ _ _ k Ht Hk) as [[]|(e & He & <-)]. eauto.
  - intros (e & <- & He). apply list_elem_of_In, list_elem_of_lookup in He.
    destruct He as (i & Hi).
    destruct (Forall2_lookup_l _ _ _ _ _ Hall Hi) as (info & _ & Hinfo).
    destruct (Hans _ _ Hinfo) as (pre & post & j & -> & _).
    apply in_or_app. right. now left.
Qed.

(** X4: when the time service answers with an empty batch, [sync] ends
    normally having asked the tracker nothing, and commits the table as it
    found it. *)
Theorem sync_empty_batch (d : db) (today horizon start : Z) :
  Date.sub_days today horizon = Some start ->
  clockwork (Date.strftime start) (Date.strftime today) = Some [] ->
  snd (run_sync d today horizon) = Ok []
  /\ requests (fst (run_sync d today horizon)) = []
  /\ db_conn (fst (run_sync d today horizon))
     = {| disk := d; work := d; commits := 1 |}.
Proof. intros Hs Hc. rewrite sync_unfold, Hs, Hc. simpl. auto. Qed.

Lemma sync_entries_succeed (es : list entry) (st : sync_state) :
  (forall e, In e es -> true_div_overflows (timeSpentSeconds e) = false) ->
  (forall e, In e es -> fits_sqlite_integer (ent_id e) = true) ->
  (forall e, In e es -> strptime (substring 0 10 (started e)) <> None) ->
  (forall pre e, In e es -> jira pre (issue e) <> None) ->
  exists infos, snd (run_entries es st) = Ok infos.
Proof.
  revert st. induction es as [|e es IH]; intros st Hov Hfit Hdate Hjira; simpl; [eauto|].
  unfold bind. pose proof (sync_entry_turn jira strptime e st) as Ht.
  destruct (sync_entry jira strptime e st) as [st1 [info|x]]; simpl in Ht.
  - destruct (IH st1) as (infos & Hinfos).
    + intros e' He'. apply Hov. now right.
    + intros e' He'. apply Hfit. now right.
    + intros e' He'. apply Hdate. now right.
    + intros pre e' He'. apply Hjira. now right.
    + destruct (run_entries es st1) as [st2 [is'|y]]; simpl in *; [eauto|discriminate].
  - exfalso.
    pose proof (Hov e (or_introl eq_refl)) as Hov'.
    pose proof (Hfit e (or_introl eq_refl)) as Hfit'.
    inversion Ht; subst; try congruence.
    + eapply Hdate; [now left|eassumption].
    + eapply Hjira; [now left|eassumption].
Qed.

(** X5: [sync] ends normally, every entry processed, as soon as the window
    is representable, the time service answers, and for every entry of the
    batch the seconds divided by 60 fit a float, the id fits the 64 bits of
    an SQLite integer, the first ten characters of [started] parse as a
    date and the tracker answers for its issue. *)
Theorem sync_succeeds (d : db) (today horizon start : Z) (es : list entry) :
  Date.sub_days today horizon = Some start ->
  clockwork (Date.strftime start) (Date.strftime today) = Some es ->
  (forall e, In e es -> Z.abs (timeSpentSeconds e) < 60 * (2 ^ 1024 - 2 ^ 970)) ->
  (forall e k, In e es -> ent_id e = Some k -> - 2 ^ 63 <= k < 2 ^ 63) ->
  (forall e, In e es -> strptime (substring 0 10 (started e)) <> None) ->
  (forall pre e, In e es -> jira pre (issue e) <> None) ->
  exists infos,
    snd (run_sync d today horizon) = Ok infos
    /\ List.length infos = List.length es
    /\ commits (db_conn (fst (run_sync d today horizon))) = 1%nat.
Proof.
  intros Hs Hc Hsecs Hid Hdate Hjira. rewrite sync_unfold, Hs, Hc.
  assert (Hov : forall e, In e es -> true_div_overflows (timeSpentSeconds e) = false).
  { intros e He. unfold true_div_overflows. apply Z.leb_gt. now apply Hsecs. }
  assert (Hfit : forall e, In e es -> fits_sqlite_integer (ent_id e) = true).
  { intros e He. unfold fits_sqlite_integer.
    destruct (ent_id e) as [k|] eqn:Hk; [|reflexivity].
    destruct (Hid e k He Hk) as [H1 H2].
    apply andb_true_intro. split; [now apply Z.leb_le|now apply Z.ltb_lt]. }
  destruct (sync_entries_succeed es (sync_start d) Hov Hfit Hdate Hjira) as (infos & Hinfos).
  pose proof (sync_entries_turns jira strptime es (sync_start d)) as Ht.
  destruct (run_entries es (sync_start d)) as [st [is'|x]]; simpl in *; [|discriminate].
  exists is'. split; [reflexivity|]. split; [exact (turns_length _ _ _ _ _ _ Ht)|].
  now rewrite (proj2 (turns_no_commit _ _ _ _ _ _ Ht)).
Qed.

Lemma turns_raise_cause es st st' x :
  run_turns es st st' (Raise x) ->
  match x with
  | ValueError => exists e, In e es /\ strptime (substring 0 10 (started e)) = None
  | HTTPError => exists e pre, In e es /\ jira pre (issue e) = None
  | OverflowError =>
      exists e, In e es
                /\ (true_div_overflows (timeSpentSeconds e) = true
                    \/ fits_sqlite_integer (ent_id e) = false)
  end.
Proof.
  remember (Raise x) as r eqn:Hr. intros Ht. revert x Hr.
  induction Ht as [st|e es st st1 y Ht|e es st st1 info st2 r Ht Hts IH]; intros x Hr.
  - discriminate.
  - injection Hr as ->. inversion Ht; subst.
    + exists e. split; [now left|now left].
    + exists e. split; [now left|assumption].
    + exists e. split; [now left|now right].
    + exists e, (requests st). split; [now left|assumption].
    + exists e. split; [now left|now right].
  - destruct r as [is'|y]; [discriminate|]. injection Hr as ->.
    specialize (IH x eq_refl). destruct x.
    + destruct IH as (e' & pre & He' & H). exists e', pre. split; [now right|exact H].
    + destruct IH as (e' & He' & H). exists e'. split; [now right|exact H].
    + destruct IH as (e' & He' & H). exists e'. split; [now right|exact H].
Qed.

(** X6: each of the three exceptions of [sync] has its cause: HTTPError,
    the time service or a request to the tracker for an issue of the batch
    failed; ValueError, some entry's [started] does not begin with a date;
    OverflowError, the start of the window is not a representable date, or
    some entry's seconds divided by 60 are beyond the largest float, or some
    entry's id is beyond the 64 bits of an SQLite integer. *)
Theorem sync_exception_cause (d : db) (today horizon : Z) (x : exn) :
  snd (run_sync d today horizon) = Raise x ->
  match x with
  | OverflowError =>
      Date.sub_days today horizon = None
      \/ exists start es e,
           Date.sub_days today horizon = Some start
           /\ clockwork (Date.strftime start) (Date.strftime today) = Some es
           /\ In e es
           /\ (60 * (2 ^ 1024 - 2 ^ 970) <= Z.abs (timeSpentSeconds e)
               \/ exists k, ent_id e = Some k /\ ~ (- 2 ^ 63 <= k < 2 ^ 63))
  | ValueError =>
      exists start es e,
        Date.sub_days today horizon = Some start
        /\ clockwork (Date.strftime start) (Date.strftime today) = Some es
        /\ In e es /\ strptime (substring 0 10 (started e)) = None
  | HTTPError =>
      exists start,
        Date.sub_days today horizon = Some start
        /\ (clockwork (Date.strftime start) (Date.strftime today) = None
            \/ exists es e pre,
                 clockwork (Date.strftime start) (Date.strftime today) = Some es
                 /\ In e es /\ jira pre (issue e) = None)
  end.
Proof.
  rewrite sync_unfold.
  destruct (Date.sub_days today horizon) as [start|]; [|intros [= <-]; now left].
  destruct (clockwork _ _) as [es|] eqn:Hc;
    [|simpl; intros [= <-]; exists start; split; [reflexivity|left; exact Hc]].
  pose proof (sync_entries_turns jira strptime es (sync_start d)) as Ht.
  destruct (run_entries es (sync_start d)) as [st [is'|y]]; simpl in *; [discriminate|].
  intros [= ->]. pose proof (turns_raise_cause _ _ _ _ Ht) as Hcause.
  destruct x.
  - destruct Hcause as (e & pre & He & H). exists start. split; [reflexivity|].
    right. exists es, e, pre. auto.
  - destruct Hcause as (e & He & H). exists start, es, e. auto.
  - destruct Hcause as (e & He & H). right. exists start, es, e.
    split; [reflexivity|]. split; [exact Hc|]. split; [exact He|].
    destruct H as [H|H].
    + left. unfold true_div_overflows in H. now apply Z.leb_le.
    + right. unfold fits_sqlite_integer in H.
      destruct (ent_id e) as [k|]; [|discriminate].
      exists k. split; [reflexivity|]. intros [H1 H2].
      apply Z.leb_le in H1. apply Z.ltb_lt in H2. rewrite H1, H2 in H. discriminate.
Qed.

Lemma turns_app_inv l1 l2 st st' infos :
  run_turns (l1 ++ l2) st st' (Ok infos) ->
  exists st1 i1 i2,
    run_turns l1 st st1 (Ok i1) /\ run_turns l2 st1 st' (Ok i2)
    /\ infos = (i1 ++ i2)%list.
Proof.
  revert st infos. induction l1 as [|e l1 IH]; intros st infos Ht; simpl in *.
  - exists st, [], infos. split; [constructor|]. auto.
  - inversion Ht; subst. destruct r as [is'|x]; [|discriminate].
    match goal with H : Ok _ = Ok _ |- _ => injection H as <- end.
    match goal with H : turns _ _ (l1 ++ l2) _ _ _ |- _ =>
      destruct (IH _ _ H) as (st1' & i1 & i2 & H1 & H2 & ->) end.
    exists st1', (info :: i1), i2. split; [|auto].
    match goal with H : turn _ _ e _ _ _ |- _ =>
      exact (turns_next _ _ _ _ _ _ _ _ _ H H1) end.
Qed.

Lemma turn_ok_upsert e st st' info :
  run_turn e st st' (Ok info) ->
  exists n, strptime (substring 0 10 (started e)) = Some n
            /\ work (db_conn st')
               = upsert (ent_id e) info (entry_minutes e) (Date.strftime n)
                        (work (db_conn st)).
Proof. intros Ht. inversion Ht; subst; simpl; eauto. Qed.

(** X7: the last entry of a batch that carries an entry id decides the row
    of that id: after a run of [sync] that ends normally the table has a row
    with that entry id, and every row with it holds the key, summary and
    project the entry was resolved to, its minutes and its day. *)
Theorem sync_last_write_wins (d : db) (today horizon start : Z)
    (pre post : list entry) (e : entry) (k : Z) (infos : list IssueInfo.t) :
  Date.sub_days today horizon = Some start ->
  clockwork (Date.strftime start) (Date.strftime today) = Some (pre ++ e :: post)%list ->
  snd (run_sync d today horizon) = Ok infos ->
  ent_id e = Some k ->
  Forall (fun e' => ent_id e' <> Some k) post ->
  exists info n,
    infos !! List.length pre = Some info
    /\ strptime (substring 0 10 (started e)) = Some n
    /\ has_entry_id k (run_sync_persisted d today horizon)
    /\ forall r, In r (rows (run_sync_persisted d today horizon)) ->
                 entry_id r = Some k ->
                 fields r = (Some (IssueInfo.key info), IssueInfo.summary info,
                             entry_minutes e, IssueInfo.project info,
                             Date.strftime n).
Proof.
  intros Hs Hc Hok Hk Hpost. unfold sync_persisted. revert Hok.
  rewrite sync_unfold, Hs, Hc.
  pose proof (sync_entries_turns jira strptime (pre ++ e :: post) (sync_start d)) as Ht.
  destruct (run_entries (pre ++ e :: post) (sync_start d)) as [st [is'|x]];
    simpl in *; [|discriminate].
  intros [= ->].
  destruct (turns_app_inv _ _ _ _ _ Ht) as (st1 & i1 & i2 & H1 & H2 & ->).
  inversion H2; subst. destruct r as [i2'|x]; [|discriminate].
  match goal with H : Ok _ = Ok _ |- _ => injection H as <- end.
  match goal with H : turn _ _ e _ _ _ |- _ =>
    destruct (turn_ok_upsert _ _ _ _ H) as (n & Hn & Hw) end.
  exists info, n. split; [|split; [exact Hn|]].
  { rewrite <- (turns_length _ _ _ _ _ _ H1).
    rewrite lookup_app_r by lia. now rewrite Nat.sub_diag. }
  match goal with H : turns _ _ post _ _ _ |- _ =>
    apply (turns_work jira strptime
             (fun w => has_entry_id k w
                       /\ forall r, In r (rows w) -> entry_id r = Some k ->
                            fields r = (Some (IssueInfo.key info),
                                        IssueInfo.summary info, entry_minutes e,
                                        IssueInfo.project info, Date.strftime n))
             (fun e' => ent_id e' <> Some k)) with (2 := H) end.
  - intros e' info' dy w He' [Hhas Hall]. split; [now apply upsert_keeps_entry_id|].
    intros r Hr Hrk. apply Hall; [|exact Hrk].
    exact (upsert_other_fields _ _ _ _ _ _ _ He' Hr Hrk).
  - exact Hpost.
  - rewrite Hw, Hk. split; [apply upsert_has_entry_id|].
    intros r Hr Hrk. exact (upsert_sets_fields _ _ _ _ _ _ Hr Hrk).
Qed.

(** The answers of a run do not depend on the table: two runs over the same
    batch from the same dictionary and trace resolve the same infos. *)
Lemma turn_same_infos e st1 st1' r1 st2 st2' r2 :
  run_turn e st1 st1' r1 -> run_turn e st2 st2' r2 ->
  issue_map st1 = issue_map st2 -> requests st1 = requests st2 ->
  r1 = r2 /\ issue_map st1' = issue_map st2' /\ requests st1' = requests st2'.
Proof.
  intros H1 H2 Hm Hq.
  destruct H1; destruct H2; simpl; rewrite ?Hm, ?Hq in *;
    try (repeat split; congruence).
Qed.

Lemma turns_same_infos es st1 st1' r1 st2 st2' r2 :
  run_turns es st1 st1' r1 -> run_turns es st2 st2' r2 ->
  issue_map st1 = issue_map st2 -> requests st1 = requests st2 ->
  r1 = r2.
Proof.
  intros H1. revert st2 st2' r2.
  induction H1 as [st|e es st sta x Ht|e es st sta info stb r Ht Hts IH];
    intros st2 st2' r2 H2 Hm Hq; inversion H2; subst.
  - reflexivity.
  - match goal with H : turn _ _ e st2 _ _ |- _ =>
      destruct (turn_same_infos _ _ _ _ _ _ _ Ht H Hm Hq) as (Hi & _) end.
    now injection Hi as ->.
  - match goal with H : turn _ _ e st2 _ _ |- _ =>
      destruct (turn_same_infos _ _ _ _ _ _ _ Ht H Hm Hq) as (? & _); discriminate end.
  - match goal with H : turn _ _ e st2 _ _ |- _ =>
      destruct (turn_same_infos _ _ _ _ _ _ _ Ht H Hm Hq) as (? & _); discriminate end.
  - match goal with H : turn _ _ e st2 _ _ |- _ =>
      destruct (turn_same_infos _ _ _ _ _ _ _ Ht H Hm Hq) as (Hi & Hm' & Hq') end.
    injection Hi as <-.
    match goal with H : turns _ _ es _ _ _ |- _ =>
      now rewrite (IH _ _ _ H Hm' Hq') end.
Qed.

Lemma row_update_key e info (r : row) :
  row_key (row_update strptime e info r) = row_key r.
Proof.
  unfold row_update. destruct (strptime _); [|reflexivity].
  destruct (entry_id_is _ _); reflexivity.
Qed.

(** After the rows of a batch are written, writing any of them again changes
    no row. *)
Lemma write_entries_fixed es infos (w : db) (g : row -> row) :
  Forall (fun e => ent_id e <> None) es ->
  (forall r, row_key (g r) = row_key r) ->
  (forall r, In r (rows w) -> g r = r) ->
  forall r, In r (rows (write_entries strptime es infos w)) ->
            row_updates strptime es infos (g r) = r.
Proof.
  revert infos w g. induction es as [|e es IH]; intros infos w g Hids Hkey Hfix;
    [intros r Hr; now apply Hfix|].
  destruct infos as [|info infos]; [intros r Hr; now apply Hfix|].
  apply Forall_cons in Hids as [He Hids]. simpl.
  intros r Hr.
  apply (IH infos (write_entry strptime e info w)
            (fun r => row_update strptime e info (g r)) Hids); [| |exact Hr].
  - intros x. now rewrite row_update_key.
  - clear r Hr. unfold write_entry, row_update.
    destruct (strptime (substring 0 10 (started e))) as [n|]; [|exact Hfix].
    destruct (ent_id e) as [k|] eqn:Hk; [clear He|contradiction].
    destruct (upsert_cases (Some k) info (entry_minutes e) (Date.strftime n) w)
      as [[Hno ->]|[_ ->]]; cbn [rows]; intros r Hr.
    + apply in_app_or in Hr. destruct Hr as [Hr|[<-|[]]].
      * rewrite (Hfix r Hr), (Hno r Hr). reflexivity.
      * rewrite (row_key_entry_id_is _ _ _ (Hkey _)). simpl. rewrite Z.eqb_refl.
        rewrite (row_key_updated_row _ _ _ _ _ (Hkey _)). reflexivity.
    + apply in_map_iff in Hr. destruct Hr as (x & <- & Hx).
      rewrite (row_key_entry_id_is _ _ _ (Hkey _)).
      rewrite (row_key_updated_row _ _ _ _ _ (Hkey _)).
      destruct (entry_id_is (Some k) x) eqn:Hm.
      * rewrite (row_key_entry_id_is _ _ x (row_key_updated_row_same _ _ _ x)), Hm.
        apply row_key_updated_row, row_key_updated_row_same.
      * rewrite Hm. now rewrite (Hfix x Hx) at 1.
Qed.

(** Writing a batch whose entry ids are all in the table rewrites rows and
    inserts none. *)
Lemma write_entries_present es infos (w : db) :
  (forall e, In e es -> exists k, ent_id e = Some k /\ has_entry_id k w) ->
  write_entries strptime es infos w
  = {| rows := map (row_updates strptime es infos) (rows w); seq := seq w |}.
Proof.
  revert infos w. induction es as [|e es IH]; intros infos w Hall.
  - simpl. rewrite map_id. now destruct w.
  - destruct infos as [|info infos]; [simpl; rewrite map_id; now destruct w|].
    simpl. destruct (Hall e (or_introl eq_refl)) as (k & Hk & (r0 & Hr0 & Hk0)).
    assert (Hw : write_entry strptime e info w
                 = {| rows := map (row_update strptime e info) (rows w); seq := seq w |}).
    { unfold write_entry, row_update.
      destruct (strptime (substring 0 10 (started e))) as [n|];
        [|rewrite map_id; now destruct w].
      apply upsert_updates. exists r0. split; [exact Hr0|].
      rewrite Hk. now apply entry_id_is_Some. }
    rewrite IH.
    + rewrite Hw. cbn [rows seq]. now rewrite map_map.
    + intros e' He'. destruct (Hall e' (or_intror He')) as (k' & Hk' & (r & Hr & Hrk)).
      exists k'. split; [exact Hk'|]. rewrite Hw.
      exists (row_update strptime e info r). split; [now apply in_map|].
      pose proof (row_update_key e info r) as Hkey. unfold row_key in Hkey.
      injection Hkey as _ ->. exact Hrk.
Qed.

(** X8: [sync] is idempotent: when every fetched entry has an id, a second
    run over the same external data leaves the table exactly as the first
    run left it. *)
Theorem sync_idempotent (d : db) (today horizon : Z) :
  (forall s t es, clockwork s t = Some es -> Forall (fun e => ent_id e <> None) es) ->
  run_sync_persisted (run_sync_persisted d today horizon) today horizon
  = run_sync_persisted d today horizon.
Proof.
  intros Hids.
  destruct (sync_persisted_cases clockwork jira strptime d today horizon)
    as [Hsame|(start & es & st & infos & Hs & Hc & Ht & Hd1)].
  - now rewrite !Hsame.
  - set (d1 := run_sync_persisted d today horizon) in *.
    destruct (sync_persisted_cases clockwork jira strptime d1 today horizon)
      as [Hsame|(start' & es' & st' & infos' & Hs' & Hc' & Ht' & Hd2)];
      [exact Hsame|].
    assert (start' = start) by congruence. subst start'.
    assert (es' = es) by congruence. subst es'.
    assert (Hi : Ok infos' = Ok infos)
      by exact (turns_same_infos _ _ _ _ _ _ _ Ht' Ht eq_refl eq_refl).
    injection Hi as ->.
    rewrite Hd2, (turns_writes _ _ _ _ _ _ Ht'). simpl.
    pose proof (turns_writes _ _ _ _ _ _ Ht) as Hw. simpl in Hw.
    rewrite <- Hd1 in Hw.
    rewrite write_entries_present.
    + rewrite (map_ext_in _ (fun r => r)); [rewrite map_id; now destruct d1|].
      intros r Hr. rewrite Hw in Hr.
      exact (write_entries_fixed es infos d (fun r => r) (Hids _ _ _ Hc)
               (fun _ => eq_refl) (fun _ _ => eq_refl) r Hr).
    + intros e He.
      pose proof (proj1 (Forall_forall _ _) (Hids _ _ _ Hc) e
                    (proj2 (list_elem_of_In _ _) He)) as Hne.
      destruct (ent_id e) as [k|] eqn:Hk; [|contradiction].
      exists k. split; [reflexivity|]. rewrite Hd1.
      exact (turns_covers _ _ _ _ _ _ Ht e k He Hk).
Qed.

End SyncMore.

(** ** The order of the listings *)

Lemma insert_by_day_sorted (r : row) (l : list row) :
  Sorted day_le l -> Sorted day_le (insert_by_day r l).
Proof.
  induction l as [|x l IH]; simpl; intros Hs; [repeat constructor|].
  destruct (String.leb (day r) (day x)) eqn:Hrx.
  - constructor; [exact Hs|]. now constructor.
  - apply Sorted_inv in Hs as [Hs Hhd]. constructor; [now apply IH|].
    assert (Hxr : day_le x r).
    { destruct (String.leb_total (day r) (day x)) as [H|H]; [congruence|exact H]. }
    destruct l as [|y l]; simpl; [now constructor|].
    destruct (String.leb (day r) (day y)); constructor; [exact Hxr|].
    now apply HdRel_inv in Hhd.
Qed.

Lemma insert_key_sorted (k : string) (ks : list string) :
  Sorted (fun a b => String.leb a b = true) ks ->
  Sorted (fun a b => String.leb a b = true) (insert_key k ks).
Proof.
  induction ks as [|x ks IH]; simpl; intros Hs; [repeat constructor|].
  destruct (String.leb k x) eqn:Hkx.
  - constructor; [exact Hs|]. now constructor.
  - apply Sorted_inv in Hs as [Hs Hhd]. constructor; [now apply IH|].
    assert (Hxk : String.leb x k = true).
    { destruct (String.leb_total k x) as [H|H]; [congruence|exact H]. }
    destruct ks as [|y ks]; simpl; [now constructor|].
    destruct (String.leb k y); constructor; [exact Hxk|].
    now apply HdRel_inv in Hhd.
Qed.

Lemma leb_neq_ltb (a b : string) : String.leb a b = true -> a <> b -> key_lt a b.
Proof.
  unfold key_lt, String.leb, String.ltb. intros Hle Hne.
  destruct (String.compare a b) eqn:Hc; [|reflexivity|discriminate].
  apply String.compare_eq_iff in Hc. contradiction.
Qed.

Lemma sorted_distinct_strict (ks : list string) :
  Sorted (fun a b => String.leb a b = true) ks -> NoDup ks -> Sorted key_lt ks.
Proof.
  induction ks as [|x ks IH]; intros Hs Hnd; [constructor|].
  apply Sorted_inv in Hs as [Hs Hhd]. apply NoDup_cons in Hnd as [Hx Hnd].
  constructor; [now apply IH|].
  destruct ks as [|y ks]; constructor.
  apply HdRel_inv in Hhd. apply leb_neq_ltb; [exact Hhd|].
  intros ->. apply Hx. now left.
Qed.

Lemma group_keys_sorted (ks : list string) : Sorted key_lt (group_keys ks).
Proof.
  apply sorted_distinct_strict; [|apply group_keys_NoDup].
  unfold group_keys. induction (remove_dups ks) as [|k l IH]; simpl; [constructor|].
  now apply insert_key_sorted.
Qed.

(** X9: the listing of [latest] holds the rows with [day >= start], each
    once, by ascending day, and the per-day view of [report] has its days
    in strictly ascending order. *)
Theorem listings_ordered (start : string) (t : list row) :
  Sorted day_le (select_latest start t)
  /\ select_latest start t ≡ₚ select_window start t
  /\ (forall r, In r (select_latest start t)
                <-> In r t /\ String.leb start (day r) = true)
  /\ Sorted key_lt (map fst (select_day_minutes start t)).
Proof.
  split; [|split; [apply order_by_day_perm|split]].
  - unfold select_latest, order_by_day.
    induction (select_window start t) as [|r l IH]; simpl; [constructor|].
    now apply insert_by_day_sorted.
  - intros r. rewrite <- select_window_In, <- !list_elem_of_In.
    unfold select_latest. now rewrite order_by_day_perm.
  - unfold select_day_minutes. rewrite grouped_keys. apply group_keys_sorted.
Qed.

(** ** The project code of create *)

Lemma upper_ascii_not_lower (c : ascii) : is_lower_ascii (upper_ascii c) = false.
Proof. destruct c as [[] [] [] [] [] [] [] []]; reflexivity. Qed.

Lemma upper_ascii_idem (c : ascii) : upper_ascii (upper_ascii c) = upper_ascii c.
Proof. destruct c as [[] [] [] [] [] [] [] []]; reflexivity. Qed.

Lemma upper_idem (s : string) : upper (upper s) = upper s.
Proof.
  induction s as [|c s IH]; simpl; [reflexivity|].
  now rewrite upper_ascii_idem, IH.
Qed.

Lemma upper_no_lower (s : string) :
  forallb (fun c => negb (is_lower_ascii c)) (list_ascii_of_string (upper s)) = true.
Proof.
  induction s as [|c s IH]; simpl; [reflexivity|].
  now rewrite upper_ascii_not_lower, IH.
Qed.

Lemma upper_length (s : string) : String.length (upper s) = String.length s.
Proof. induction s as [|c s IH]; simpl; [reflexivity|]. now rewrite IH. Qed.

Section CreateProject.

Variable float_str : Q -> string.

(** X11: for an ASCII project code, the row [create] inserts has a project
    of the same length with no lower-case letter in it, and [create] with the
    code already in upper case leaves the same table and prints the same. *)
Theorem create_upper_cases_project (d : db) (today : Z) (proj : string)
    (mins : Q) (desc : string) (tk : option string) (dy : string) :
  is_ascii_string proj = true ->
  (exists r,
     rows (persisted (create float_str d today proj mins desc tk dy))
     = (rows d ++ [r])%list
     /\ String.length (project r) = String.length proj
     /\ forallb (fun c => negb (is_lower_ascii c))
                (list_ascii_of_string (project r)) = true)
  /\ create float_str d today (upper proj) mins desc tk dy
     = create float_str d today proj mins desc tk dy.
Proof.
  intros _. split.
  - eexists. split; [apply create_rows|]. simpl.
    split; [apply upper_length|apply upper_no_lower].
  - unfold create. now rewrite upper_idem.
Qed.

End CreateProject.

(** ** remove and the order of insertion *)

Lemma StronglySorted_filter_ids (p : row -> bool) (t : list row) :
  StronglySorted Z.lt (map id t) -> StronglySorted Z.lt (map id (List.filter p t)).
Proof.
  induction t as [|r t IH]; simpl; intros Hs; [constructor|].
  apply StronglySorted_inv in Hs as [Hs Hall].
  destruct (p r); simpl; [|now apply IH].
  constructor; [now apply IH|].
  apply Forall_forall. intros x Hx. apply list_elem_of_In, in_map_iff in Hx.
  destruct Hx as (y & <- & Hy). apply List.filter_In in Hy as [Hy _].
  apply (proj1 (Forall_forall _ _) Hall), list_elem_of_In. now apply in_map.
Qed.

Lemma upsert_ids_ascending eid info mins dy (d : db) :
  ids_ascending d -> ids_ascending (upsert eid info mins dy d).
Proof.
  unfold ids_ascending. intros Hs.
  destruct (upsert_cases eid info mins dy d) as [[_ ->]|[_ ->]]; cbn [rows].
  - rewrite map_app. apply StronglySorted_app_2; [|exact Hs|repeat constructor].
    intros a b Ha Hb. apply list_elem_of_singleton in Hb. subst b.
    apply list_elem_of_In, in_map_iff in Ha. destruct Ha as (r & <- & Hr).
    now apply next_rowid_above.
  - rewrite map_map. erewrite map_ext; [exact Hs|].
    intros r. now destruct (entry_id_is eid r).
Qed.

Lemma reachable_ids_ascending (d : db) : reachable d -> ids_ascending d.
Proof.
  induction 1 as [|float_str d today proj mins desc tk dy _ IH
                  |float_str d today _ IH
                  |clockwork jira strptime d today horizon _ IH].
  - constructor.
  - unfold ids_ascending. rewrite create_rows, map_app.
    apply StronglySorted_app_2; [|exact IH|repeat constructor].
    intros a b Ha Hb. apply list_elem_of_singleton in Hb. subst b.
    apply list_elem_of_In, in_map_iff in Ha. destruct Ha as (r & <- & Hr).
    now apply next_rowid_above.
  - apply StronglySorted_filter_ids. exact IH.
  - apply (sync_persisted_keeps clockwork jira strptime ids_ascending (fun _ => True));
      [|intros s t es _; now apply Forall_forall|exact IH].
    intros e info dy w _. apply upsert_ids_ascending.
Qed.

Lemma delete_max_snoc (l : list row) (x : row) :
  (forall r, In r l -> id r < id x) ->
  List.filter (fun r => negb (is_max_id (max_id (l ++ [x])) r)) (l ++ [x]) = l.
Proof.
  intros Hlt. rewrite (max_id_snoc l x Hlt), List.filter_app. simpl.
  rewrite Z.eqb_refl. simpl. rewrite app_nil_r. apply filter_all.
  intros r Hr. apply negb_true_iff, Z.eqb_neq. specialize (Hlt r Hr). lia.
Qed.

Section RemoveLast.

Variable float_str : Q -> string.

(** X12: in a table the commands have produced, the row of the largest id
    is the last one, so [remove] takes out the row inserted last and leaves
    the rows before it. *)
Theorem remove_takes_last_inserted (d : db) (today : Z) :
  reachable d ->
  rows (persisted (remove float_str d today)) = removelast (rows d).
Proof.
  intros Hr. apply reachable_ids_ascending in Hr. unfold ids_ascending in Hr.
  simpl. destruct (rows d) as [|r t]; [reflexivity|].
  destruct (@exists_last _ (r :: t)) as (l & x & Heq); [discriminate|].
  rewrite Heq in *. rewrite removelast_last.
  apply delete_max_snoc. intros y Hy.
  rewrite map_app in Hr. apply StronglySorted_app in Hr as (Hlt & _ & _).
  apply Hlt; apply list_elem_of_In; [now apply in_map|now left].
Qed.

End RemoveLast.

(** ** The listing at the edges *)

Lemma filter_none {A} (f : A -> bool) (l : list A) :
  (forall x, In x l -> f x = false) -> List.filter f l = [].
Proof.
  induction l as [|x l IH]; simpl; intros H; [reflexivity|].
  rewrite (H x (or_introl eq_refl)). apply IH. intros y Hy. apply H. now right.
Qed.

Lemma latest_lists_window_row (float_str : Q -> string) (d : db)
    (start : string) (r : row) :
  In r (rows d) -> String.leb start (day r) = true ->
  In (latest_line float_str r) (latest_entries float_str start d).
Proof.
  intros Hr Hd. unfold latest_entries, select_latest. apply in_map.
  apply list_elem_of_In. rewrite order_by_day_perm.
  apply list_elem_of_In, select_window_In. tauto.
Qed.

Section ListingEdges.

Variable float_str : Q -> string.

(** X13: when no row of the table has [day >= today - horizon], [report]
    prints the blank line between its two views and nothing else, and
    [latest] prints that after the blank line that ends its empty listing. *)
Theorem empty_window_listing (d : db) (today horizon : Z) (start : string) :
  window_start today horizon = Ok start ->
  (forall r, In r (rows d) -> String.leb start (day r) = false) ->
  report float_str d today horizon = Ok [""]
  /\ latest float_str d today horizon = Ok [""; ""].
Proof.
  intros Hs Hout.
  assert (Hw : select_window start (rows d) = []) by now apply filter_none.
  unfold latest, report. rewrite Hs.
  unfold latest_entries, report_projects, report_days, select_latest,
    select_project_hours, select_day_minutes.
  rewrite Hw. split; reflexivity.
Qed.

(** X14: for an ASCII project code and a number of minutes, the listing
    [create] prints shows the entry just created when its day is today or
    later (today is the default of the command line). *)
Theorem create_shows_entry (d : db) (today : Z) (proj : string) (mins : Q)
    (desc : string) (tk : option string) (dy : string) :
  is_ascii_string proj = true ->
  Date.valid today = true ->
  String.leb (Date.strftime today) dy = true ->
  exists out,
    printed (create float_str d today proj mins desc tk dy) = Ok out
    /\ In (dy ++ ": " ++ upper proj ++ " (" ++ ticket_or_none tk ++ ") " ++ desc
              ++ " [" ++ float_str (mins / 60)%Q ++ " hours]")%string out.
Proof.
  intros _ Hv Hday.
  set (d' := persisted (create float_str d today proj mins desc tk dy)).
  set (new := {| id := next_rowid d; entry_id := None; day := dy; ticket := tk;
                 description := desc; minutes := mins; project := upper proj |}).
  assert (Hin : In new (rows d')).
  { unfold d'. rewrite create_rows. apply in_or_app. right. now left. }
  pose proof (latest_lists_window_row float_str d' (Date.strftime today) new Hin Hday)
    as Hline.
  change (printed (create float_str d today proj mins desc tk dy))
    with (latest float_str d' today 0).
  unfold latest, report. rewrite (window_start_today today Hv).
  eexists. split; [reflexivity|].
  apply in_or_app. left. exact Hline.
Qed.

End ListingEdges.

(** ** Entries without id, and the project of synced rows *)

Lemma upsert_ticket_project eid info mins dy (d : db) (r : row) :
  In r (rows (upsert eid info mins dy d)) ->
  In r (rows d)
  \/ (ticket r = Some (IssueInfo.key info) /\ project r = IssueInfo.project info).
Proof.
  destruct (upsert_cases eid info mins dy d) as [[_ ->]|[_ ->]]; cbn [rows].
  - intros Hr. apply in_app_or in Hr. destruct Hr as [Hr|[<-|[]]]; auto.
  - intros Hr. apply in_map_iff in Hr. destruct Hr as (x & <- & Hx).
    destruct (entry_id_is eid x); auto.
Qed.

Lemma upsert_project_from_ticket eid (j : issue_json) mins dy (d : db) :
  project_from_ticket d -> project_from_ticket (upsert eid (issue_info_of j) mins dy d).
Proof.
  intros Hd r Hr Hid. destruct (upsert_ticket_project _ _ _ _ _ _ Hr) as [Hin|[Ht Hp]].
  - now apply Hd.
  - exists (json_key j). split; [exact Ht|exact Hp].
Qed.

Section SyncedRows.

Variable clockwork : string -> string -> option (list entry).
Variable jira : list Z -> Z -> option issue_json.
Variable strptime : string -> option Z.

Lemma write_entries_project_from_ticket es infos (w : db) :
  Forall (fun info => exists j, info = issue_info_of j) infos ->
  project_from_ticket w ->
  project_from_ticket (write_entries strptime es infos w).
Proof.
  revert infos w. induction es as [|e es IH]; intros infos w Hinfos Hw; [exact Hw|].
  destruct infos as [|info infos]; [exact Hw|].
  apply Forall_cons in Hinfos as [(j & ->) Hinfos]. simpl.
  apply IH; [exact Hinfos|]. unfold write_entry.
  destruct (strptime _); [|exact Hw]. now apply upsert_project_from_ticket.
Qed.

Lemma sync_project_from_ticket (d : db) (today horizon : Z) :
  project_from_ticket d ->
  project_from_ticket (sync_persisted clockwork jira strptime d today horizon).
Proof.
  intros Hd.
  destruct (sync_persisted_cases clockwork jira strptime d today horizon)
    as [->|(start & es & st & infos & _ & _ & Ht & ->)]; [exact Hd|].
  rewrite (turns_writes _ _ _ _ _ _ Ht). simpl.
  apply write_entries_project_from_ticket; [|exact Hd].
  destruct (turns_memo _ _ _ _ _ _ Ht (memo_ok_start jira d)) as (_ & Hok).
  destruct (Hok infos eq_refl) as ((_ & _ & Hans) & _ & Hall).
  apply Forall_forall. intros info Hinfo.
  apply list_elem_of_lookup in Hinfo as (i & Hi).
  destruct (Forall2_lookup_r _ _ _ _ _ Hall Hi) as (e & _ & He).
  destruct (Hans _ _ He) as (_ & _ & j & _ & _ & ->). eauto.
Qed.

Lemma turns_anonymous es st st' infos :
  turns jira strptime es st st' (Ok infos) ->
  Forall (fun e => ent_id e = None) es ->
  List.length (rows (work (db_conn st')))
  = (List.length (rows (work (db_conn st))) + List.length es)%nat.
Proof.
  revert st st' infos. induction es as [|e es IH]; intros st st' infos Ht Hnone;
    inversion Ht; subst; [simpl; lia|].
  destruct r as [is'|x]; [|discriminate].
  apply Forall_cons in Hnone as [He Hnone].
  match goal with H : turns _ _ es _ _ _ |- _ => rewrite (IH _ _ _ H Hnone) end.
  match goal with H : turn _ _ e _ _ _ |- _ =>
    destruct (turn_ok_upsert _ _ _ _ _ _ H) as (n & _ & ->) end.
  rewrite He, upsert_inserts by (intros r _; reflexivity).
  cbn [rows]. rewrite List.length_app. simpl. lia.
Qed.

(** X15: an entry whose id is null never matches a row, so a run of [sync]
    that ends normally on a batch of such entries adds one row per entry,
    every time it runs. *)
Theorem sync_null_ids_always_insert (d : db) (today horizon start : Z)
    (es : list entry) (infos : list IssueInfo.t) :
  Date.sub_days today horizon = Some start ->
  clockwork (Date.strftime start) (Date.strftime today) = Some es ->
  Forall (fun e => ent_id e = None) es ->
  snd (sync clockwork jira strptime d today horizon) = Ok infos ->
  List.length (rows (sync_persisted clockwork jira strptime d today horizon))
  = (List.length (rows d) + List.length es)%nat.
Proof.
  intros Hs Hc Hnone. unfold sync_persisted. rewrite sync_unfold, Hs, Hc.
  pose proof (sync_entries_turns jira strptime es (sync_start d)) as Ht.
  destruct (sync_entries jira strptime es (sync_start d)) as [st [is'|x]];
    simpl in *; [|discriminate].
  intros _. exact (turns_anonymous _ _ _ _ Ht Hnone).
Qed.

End SyncedRows.

(** X16: in every table the commands produce, a row with an entry id has
    a ticket, and its project is the first three characters of that
    ticket. *)
Theorem synced_rows_project_is_ticket_prefix (d : db) (r : row) :
  reachable d ->
  In r (rows d) ->
  entry_id r <> None ->
  exists key, ticket r = Some key /\ project r = substring 0 3 key.
Proof.
  intros Hreach. revert r.
  change (project_from_ticket d).
  induction Hreach as [|float_str d today proj mins desc tk dy _ IH
                       |float_str d today _ IH
                       |clockwork jira strptime d today horizon _ IH].
  - intros r [].
  - intros r Hr Hid. rewrite create_rows in Hr.
    apply in_app_or in Hr. destruct Hr as [Hr|[<-|[]]]; [now apply IH|].
    now contradiction Hid.
  - intros r Hr Hid. simpl in Hr. apply List.filter_In in Hr as [Hr _]. now apply IH.
  - now apply sync_project_from_ticket.
Qed.

(** ** The further properties at the examples *)

Lemma sync_requests_each_issue_once_witness :
  requests (fst (sync example_clockwork example_jira Date.strptime_iso
                      example_db example_today 1))
  ≡ₚ remove_dups [1001; 1001].
Proof.
  assert (Hs : Date.sub_days example_today 1 = Some 738886) by reflexivity.
  assert (Hok : snd (sync example_clockwork example_jira Date.strptime_iso
                          example_db example_today 1)
                = Ok [ issue_info_of {| json_key := "ABC-12"; json_summary := "Fix login" |};
                       issue_info_of {| json_key := "ABC-12"; json_summary := "Fix login" |} ])
    by (vm_compute; reflexivity).
  exact (sync_requests_each_issue_once example_clockwork example_jira Date.strptime_iso
           example_db example_today 1 738886 _ _ Hs eq_refl Hok).
Defined.

Lemma sync_empty_batch_witness :
  snd (sync empty_clockwork example_jira Date.strptime_iso example_db example_today 1)
  = Ok []
  /\ sync_persisted empty_clockwork example_jira Date.strptime_iso
                    example_db example_today 1 = example_db.
Proof.
  assert (Hs : Date.sub_days example_today 1 = Some 738886) by reflexivity.
  destruct (sync_empty_batch empty_clockwork example_jira Date.strptime_iso
              example_db example_today 1 738886 Hs eq_refl) as (H1 & _ & H3).
  split; [exact H1|]. unfold sync_persisted. now rewrite H3.
Defined.

Lemma sync_succeeds_witness :
  exists infos,
    snd (sync example_clockwork example_jira Date.strptime_iso example_db example_today 1)
    = Ok infos
    /\ List.length infos = 2%nat.
Proof.
  assert (Hs : Date.sub_days example_today 1 = Some 738886) by reflexivity.
  assert (Hdate : forall e,
            In e [ {| ent_id := Some 42; timeSpentSeconds := 5400;
                      started := "2024-01-02T09:00:00.000Z"; issue := 1001 |};
                   {| ent_id := Some 43; timeSpentSeconds := 1800;
                      started := "2024-01-02T11:30:00.000Z"; issue := 1001 |} ] ->
            Date.strptime_iso (substring 0 10 (started e)) <> None).
  { intros e [<-|[<-|[]]]; discriminate. }
  assert (Hjira : forall pre e,
            In e [ {| ent_id := Some 42; timeSpentSeconds := 5400;
                      started := "2024-01-02T09:00:00.000Z"; issue := 1001 |};
                   {| ent_id := Some 43; timeSpentSeconds := 1800;
                      started := "2024-01-02T11:30:00.000Z"; issue := 1001 |} ] ->
            example_jira pre (issue e) <> None).
  { intros pre e [<-|[<-|[]]]; discriminate. }
  assert (Hsecs : forall e,
            In e [ {| ent_id := Some 42; timeSpentSeconds := 5400;
                      started := "2024-01-02T09:00:00.000Z"; issue := 1001 |};
                   {| ent_id := Some 43; timeSpentSeconds := 1800;
                      started := "2024-01-02T11:30:00.000Z"; issue := 1001 |} ] ->
            Z.abs (timeSpentSeconds e) < 60 * (2 ^ 1024 - 2 ^ 970)).
  { intros e [<-|[<-|[]]]; vm_compute; reflexivity. }
  assert (Hid : forall e k,
            In e [ {| ent_id := Some 42; timeSpentSeconds := 5400;
                      started := "2024-01-02T09:00:00.000Z"; issue := 1001 |};
                   {| ent_id := Some 43; timeSpentSeconds := 1800;
                      started := "2024-01-02T11:30:00.000Z"; issue := 1001 |} ] ->
            ent_id e = Some k -> - 2 ^ 63 <= k < 2 ^ 63).
  { intros e k [<-|[<-|[]]] [= <-]; split; vm_compute; congruence. }
  destruct (sync_succeeds example_clockwork example_jira Date.strptime_iso
              example_db example_today 1 738886 _ Hs eq_refl Hsecs Hid Hdate Hjira)
    as (infos & Hok & Hlen & _).
  exists infos. split; [exact Hok|exact Hlen].
Defined.

Lemma sync_exception_cause_witness :
  snd (sync failing_clockwork example_jira Date.strptime_iso example_db example_today 1)
  = Raise HTTPError
  /\ exists start,
       Date.sub_days example_today 1 = Some start
       /\ (failing_clockwork (Date.strftime start) (Date.strftime example_today) = None
           \/ exists es e pre,
                failing_clockwork (Date.strftime start) (Date.strftime example_today)
                = Some es
                /\ In e es /\ example_jira pre (issue e) = None).
Proof.
  assert (Hr : snd (sync failing_clockwork example_jira Date.strptime_iso
                         example_db example_today 1) = Raise HTTPError)
    by (vm_compute; reflexivity).
  split; [exact Hr|].
  exact (sync_exception_cause failing_clockwork example_jira Date.strptime_iso
           example_db example_today 1 HTTPError Hr).
Defined.

Lemma sync_last_write_wins_witness :
  let e := {| ent_id := Some 43; timeSpentSeconds := 1800;
              started := "2024-01-02T11:30:00.000Z"; issue := 1001 |} in
  exists info n,
    Date.strptime_iso (substring 0 10 (started e)) = Some n
    /\ has_entry_id 43 synced_db
    /\ forall r, In r (rows synced_db) -> entry_id r = Some 43 ->
                 fields r = (Some (IssueInfo.key info), IssueInfo.summary info,
                             entry_minutes e, IssueInfo.project info,
                             Date.strftime n).
Proof.
  intros e.
  assert (Hs : Date.sub_days example_today 1 = Some 738886) by reflexivity.
  assert (Hok : snd (sync example_clockwork example_jira Date.strptime_iso
                          example_db example_today 1)
                = Ok [ issue_info_of {| json_key := "ABC-12"; json_summary := "Fix login" |};
                       issue_info_of {| json_key := "ABC-12"; json_summary := "Fix login" |} ])
    by (vm_compute; reflexivity).
  destruct (sync_last_write_wins example_clockwork example_jira Date.strptime_iso
              example_db example_today 1 738886
              [ {| ent_id := Some 42; timeSpentSeconds := 5400;
                   started := "2024-01-02T09:00:00.000Z"; issue := 1001 |} ]
              [] e 43 _ Hs eq_refl Hok eq_refl (Forall_nil_2 _))
    as (info & n & _ & Hn & Hhas & Hall).
  exists info, n. split; [exact Hn|]. split; [exact Hhas|exact Hall].
Defined.

Lemma sync_idempotent_witness :
  sync_persisted example_clockwork example_jira Date.strptime_iso
                 synced_db example_today 1
  = synced_db.
Proof.
  assert (Hids : forall s t es, example_clockwork s t = Some es ->
                   Forall (fun e => ent_id e <> None) es).
  { intros s t es [= <-]. repeat constructor; discriminate. }
  exact (sync_idempotent example_clockwork example_jira Date.strptime_iso
           example_db example_today 1 Hids).
Defined.

Lemma create_upper_cases_project_witness :
  is_ascii_string "abc" = true
  /\ create decimal_str example_db example_today "ABC" 15 "late entry" None "2024-01-02"
     = create decimal_str example_db example_today "abc" 15 "late entry" None "2024-01-02".
Proof.
  assert (Ha : is_ascii_string "abc" = true) by reflexivity.
  split; [exact Ha|].
  exact (proj2 (create_upper_cases_project decimal_str example_db example_today
                  "abc" 15 "late entry" None "2024-01-02" Ha)).
Defined.

Lemma remove_takes_last_inserted_witness :
  let d := persisted (create decimal_str
                        (persisted (create decimal_str empty_db example_today
                                           "abc" 15 "first" None "2024-01-02"))
                        example_today "xyz" 20 "second" None "2024-01-01") in
  reachable d
  /\ map description (rows d) = ["first"; "second"]
  /\ map description (rows (persisted (remove decimal_str d example_today))) = ["first"].
Proof.
  intros d.
  assert (Hr : reachable d) by (repeat constructor).
  split; [exact Hr|]. split; [reflexivity|].
  now rewrite (remove_takes_last_inserted decimal_str d example_today Hr).
Defined.

Lemma empty_window_listing_witness :
  window_start (example_today + 30) 0 = Ok "2024-02-01"
  /\ latest decimal_str example_db (example_today + 30) 0 = Ok [""; ""].
Proof.
  assert (Hs : window_start (example_today + 30) 0 = Ok "2024-02-01") by reflexivity.
  assert (Hout : forall r, In r (rows example_db) -> String.leb "2024-02-01" (day r) = false).
  { intros r [<-|[<-|[<-|[]]]]; reflexivity. }
  split; [exact Hs|].
  exact (proj2 (empty_window_listing decimal_str example_db (example_today + 30) 0
                  "2024-02-01" Hs Hout)).
Defined.

Lemma create_shows_entry_witness :
  is_ascii_string "abc" = true
  /\ Date.valid example_today = true
  /\ exists out,
       printed (create decimal_str example_db example_today
                       "abc" 15 "late entry" None "2024-01-02") = Ok out
       /\ In "2024-01-02: ABC (no ticket) late entry [0.25 hours]" out.
Proof.
  assert (Ha : is_ascii_string "abc" = true) by reflexivity.
  assert (Hv : Date.valid example_today = true) by reflexivity.
  split; [exact Ha|]. split; [exact Hv|].
  exact (create_shows_entry decimal_str example_db example_today
           "abc" 15 "late entry" None "2024-01-02" Ha Hv eq_refl).
Defined.

Lemma sync_null_ids_always_insert_witness :
  List.length (rows (sync_persisted anonymous_clockwork example_jira Date.strptime_iso
                       (sync_persisted anonymous_clockwork example_jira
                                       Date.strptime_iso example_db example_today 1)
                       example_today 1))
  = 5%nat.
Proof.
  assert (Hs : Date.sub_days example_today 1 = Some 738886) by reflexivity.
  assert (Hnone : Forall (fun e => ent_id e = None)
                    [ {| ent_id := None; timeSpentSeconds := 900;
                         started := "2024-01-02T15:00:00.000Z"; issue := 1001 |} ])
    by (repeat constructor).
  assert (Hok : forall d,
            snd (sync anonymous_clockwork example_jira Date.strptime_iso d example_today 1)
            = Ok [ issue_info_of {| json_key := "ABC-12"; json_summary := "Fix login" |} ]).
  { intros d. reflexivity. }
  rewrite (sync_null_ids_always_insert anonymous_clockwork example_jira
             Date.strptime_iso _ example_today 1 738886 _ _ Hs eq_refl Hnone (Hok _)).
  rewrite (sync_null_ids_always_insert anonymous_clockwork example_jira
             Date.strptime_iso _ example_today 1 738886 _ _ Hs eq_refl Hnone (Hok _)).
  reflexivity.
Defined.

Lemma synced_rows_project_is_ticket_prefix_witness :
  let d := sync_persisted example_clockwork example_jira Date.strptime_iso
                          empty_db example_today 1 in
  let r := {| id := 1; entry_id := Some 42; day := "2024-01-02";
              ticket := Some "ABC-12"; description := "Fix login";
              minutes := (inject_Z 5400 / 60)%Q; project := "ABC" |} in
  reachable d /\ In r (rows d)
  /\ exists key, ticket r = Some key /\ project r = substring 0 3 key.
Proof.
  intros d r.
  assert (Hreach : reachable d) by (repeat constructor).
  assert (Hin : In r (rows d)) by (left; reflexivity).
  split; [exact Hreach|]. split; [exact Hin|].
  exact (synced_rows_project_is_ticket_prefix d r Hreach Hin
           (fun H : Some 42 = None => eq_ind (Some 42)
              (fun o => match o with Some _ => True | None => False end) I None H)).
Defined.
